(** * UnifiedLLMOrchestrator: provider selection, rate accounting and fallback

    A shallow embedding of [src/UnifiedLLMOrchestrator.ts] and the
    properties of its selection, rate-limit and fallback logic.

    Conventions of the embedding:
    - JS numbers that hold counts, priorities, limits and millisecond
      timestamps are [Z]; [temperature] (0.7) is a rational.
    - [Map<string, LLMProvider>] keeps insertion order, which decides ties
      of the stable sort, so it is an association list with the semantics
      of [Map.prototype.set]; [Map<string, number>] is only looked up,
      updated and zeroed, so it is a [gmap string Z].
    - The private fields of the singleton together with the environment the
      methods touch (the wall clock, the calls made to the credential
      manager) form the record [World]; every method is a function that
      takes the world and returns the new one.
    - [new Date()] and [Date.now()] read a clock [nat -> Z]: the n-th read
      of a run returns [clock n].
    - A JS string is the [string] of the bytes of its UTF-8 encoding;
      concatenation and [===] are those of [string], and [.length] is
      [utf16Length].
    - A thrown exception is the [Throw] case of [Result].
    - [console.log] is not modelled. A call of the async [generate] is
      modelled run to completion, without other calls interleaved at its
      [await]s. *)

From Stdlib Require Import ZArith QArith List Bool Lia Sorting.Sorted Sorting.Permutation.
From stdpp Require Import gmap strings list fin_maps.

Local Open Scope string_scope.
Local Open Scope Z_scope.

(** ** Data model *)

Inductive Latency := LatencyLow | LatencyMedium | LatencyHigh.
Inductive Cost := CostFree | CostLow | CostMedium | CostHigh.

Module LLMProvider.
Record t := mk {
  name : string;
  endpoint : string;
  model : string;
  maxTokens : Z;
  temperature : Q;
  priority : Z;
  capabilities : list string;
  rateLimit : Z;       (* requests per minute *)
  latency : Latency;
  cost : Cost
}.
End LLMProvider.

Module LLMRequest.
Record t := mk {
  prompt : string;
  systemPrompt : option string;
  maxTokens : option Z;
  temperature : option Q;
  preferredProvider : option string;
  requiredCapabilities : option (list string)
}.
End LLMRequest.

Module LLMResponse.
Record t := mk {
  text : string;
  provider : string;
  model : string;
  tokensUsed : Z;
  latency : Z;
  cached : bool
}.
End LLMResponse.

(** What a [throw] carries: [new Error(message)]. *)
Inductive Exn := Error (message : string).

Inductive Result (A : Type) :=
| Ok (value : A)
| Throw (error : Exn).
Arguments Ok {A} value.
Arguments Throw {A} error.

Definition isThrow {A} (r : Result A) : bool :=
  match r with Ok _ => false | Throw _ => true end.

(** ** The catalog [providerConfigs] *)

Definition seven_tenths : Q := 7 # 10.

Definition providerConfigs : list LLMProvider.t :=
  [ LLMProvider.mk "Claude" "https://api.anthropic.com/v1/messages"
      "claude-3-opus-20240229" 4096 seven_tenths 1
      ["reasoning"; "coding"; "analysis"; "creative"; "long-context"]
      60 LatencyMedium CostHigh;
    LLMProvider.mk "OpenAI" "https://api.openai.com/v1/chat/completions"
      "gpt-4-turbo-preview" 4096 seven_tenths 2
      ["reasoning"; "coding"; "analysis"; "creative"; "function-calling"]
      60 LatencyMedium CostHigh;
    LLMProvider.mk "DeepSeek" "https://api.deepseek.com/v1/chat/completions"
      "deepseek-chat" 4096 seven_tenths 3
      ["reasoning"; "coding"; "math"; "analysis"]
      100 LatencyMedium CostLow;
    LLMProvider.mk "Ollama" "http://localhost:11434/api/generate"
      "llama2" 4096 seven_tenths 4
      ["reasoning"; "coding"; "local"; "offline"]
      1000 LatencyLow CostFree;
    LLMProvider.mk "Gemini" "https://generativelanguage.googleapis.com/v1beta/models"
      "gemini-pro" 4096 seven_tenths 5
      ["reasoning"; "multimodal"; "analysis"; "vision"]
      60 LatencyMedium CostMedium;
    LLMProvider.mk "Cohere" "https://api.cohere.ai/v1/chat"
      "command" 4096 seven_tenths 6
      ["reasoning"; "enterprise"; "rag"; "embeddings"]
      100 LatencyMedium CostMedium;
    LLMProvider.mk "HuggingFace" "https://api-inference.huggingface.co/models"
      "mistralai/Mixtral-8x7B-Instruct-v0.1" 4096 seven_tenths 7
      ["reasoning"; "open-source"; "custom-models"]
      30 LatencyHigh CostLow;
    LLMProvider.mk "Mistral" "https://api.mistral.ai/v1/chat/completions"
      "mistral-large-latest" 4096 seven_tenths 8
      ["reasoning"; "coding"; "multilingual"; "european"]
      60 LatencyMedium CostMedium;
    LLMProvider.mk "Perplexity" "https://api.perplexity.ai/chat/completions"
      "pplx-7b-online" 4096 seven_tenths 9
      ["search"; "real-time"; "citations"; "web-access"]
      20 LatencyMedium CostMedium;
    LLMProvider.mk "Groq" "https://api.groq.com/openai/v1/chat/completions"
      "mixtral-8x7b-32768" 4096 seven_tenths 10
      ["fast-inference"; "reasoning"; "speed-optimized"]
      100 LatencyLow CostLow;
    LLMProvider.mk "TogetherAI" "https://api.together.xyz/v1/chat/completions"
      "togethercomputer/llama-2-70b-chat" 4096 seven_tenths 11
      ["fine-tuning"; "custom-models"; "reasoning"]
      60 LatencyMedium CostLow ].

(** ** The world: the instance's fields and its environment *)

Record World := mkWorld {
  providers : list (string * LLMProvider.t);  (* this.providers, in insertion order *)
  requestCounts : gmap string Z;              (* this.requestCounts *)
  lastReset : Z;                              (* this.lastReset.getTime() *)
  clockReads : nat;                           (* clock reads made so far *)
  invoked : list string                       (* names passed to getCredential, oldest first *)
}.

Definition withCounts (w : World) (c : gmap string Z) : World :=
  mkWorld (providers w) c (lastReset w) (clockReads w) (invoked w).

(** [Map.prototype.get] and [Map.prototype.set] on the insertion-ordered map. *)
Fixpoint mapGet {V} (k : string) (m : list (string * V)) : option V :=
  match m with
  | [] => None
  | (k', v) :: m' => if String.eqb k' k then Some v else mapGet k m'
  end.

Fixpoint mapSet {V} (k : string) (v : V) (m : list (string * V)) : list (string * V) :=
  match m with
  | [] => [(k, v)]
  | (k', v') :: m' =>
      if String.eqb k' k then (k, v) :: m' else (k', v') :: mapSet k v m'
  end.

(** [this.requestCounts.get(name) || 0] *)
Definition countOf (w : World) (nm : string) : Z :=
  default 0 (requestCounts w !! nm).

(** ** Methods *)

Section Methods.

(** The wall clock. *)
Variable clock : nat -> Z.

Definition readClock (w : World) : Z * World :=
  (clock (clockReads w),
   mkWorld (providers w) (requestCounts w) (lastReset w) (S (clockReads w)) (invoked w)).

(** [initializeProviders], run by the constructor on the fresh fields
    ([lastReset] is initialised with [new Date()]). [isConfigured] is
    [credentialManager.isConfigured], of
    [../security/SecureCredentialManager], which is outside the module. *)
Fixpoint initializeLoop (isConfigured : string -> bool)
    (configs : list LLMProvider.t) (w : World) : World :=
  match configs with
  | [] => w
  | config :: rest =>
      if isConfigured (LLMProvider.name config)
         || String.eqb (LLMProvider.name config) "Ollama"
      then initializeLoop isConfigured rest
             (mkWorld (mapSet (LLMProvider.name config) config (providers w))
                      (<[LLMProvider.name config := 0]> (requestCounts w))
                      (lastReset w) (clockReads w) (invoked w))
      else initializeLoop isConfigured rest w
  end.

Definition getInstance (isConfigured : string -> bool) : World :=
  let '(now, w) := readClock (mkWorld [] ∅ 0 0%nat []) in
  initializeLoop isConfigured providerConfigs
    (mkWorld (providers w) (requestCounts w) now (clockReads w) (invoked w)).

(** [Array.prototype.sort] is stable; with the comparator
    [a.priority - b.priority] its result is the stable insertion sort. *)
Fixpoint insertByPriority (x : LLMProvider.t) (l : list LLMProvider.t) : list LLMProvider.t :=
  match l with
  | [] => [x]
  | y :: l' =>
      if LLMProvider.priority x <=? LLMProvider.priority y
      then x :: y :: l'
      else y :: insertByPriority x l'
  end.

Definition sortByPriority (l : list LLMProvider.t) : list LLMProvider.t :=
  foldr insertByPriority [] l.

Definition getAvailableProviders (w : World) : list LLMProvider.t :=
  sortByPriority (map snd (providers w)).

(** The window reset of [isWithinRateLimit]: every count to 0. *)
Definition resetCounts (now : Z) (w : World) : World :=
  mkWorld (providers w) ((fun _ : Z => 0) <$> requestCounts w) now
          (clockReads w) (invoked w).

Definition isWithinRateLimit (provider : LLMProvider.t) (w : World) : bool * World :=
  let '(now, w1) := readClock w in
  let w2 := if 60000 <? now - lastReset w1 then resetCounts now w1 else w1 in
  let count := countOf w2 (LLMProvider.name provider) in
  (count <? LLMProvider.rateLimit provider, w2).

Definition recordRequest (provider : LLMProvider.t) (w : World) : World :=
  let count := countOf w (LLMProvider.name provider) in
  withCounts w (<[LLMProvider.name provider := count + 1]> (requestCounts w)).

(** [for (const provider of l) if (cond(provider) && this.isWithinRateLimit(provider)) return provider;]
    the shape of the three scans of the class. [&&] short-cuts: the rate
    check, which reads the clock, runs only when [cond] holds. *)
Fixpoint firstWithinLimit (cond : LLMProvider.t -> bool) (l : list LLMProvider.t)
    (w : World) : option LLMProvider.t * World :=
  match l with
  | [] => (None, w)
  | provider :: rest =>
      if cond provider then
        let '(ok, w1) := isWithinRateLimit provider w in
        if ok then (Some provider, w1) else firstWithinLimit cond rest w1
      else firstWithinLimit cond rest w
  end.

(** [required.every(cap => provider.capabilities.includes(cap))] *)
Definition hasAllCapabilities (required : list string) (provider : LLMProvider.t) : bool :=
  forallb (fun cap => existsb (String.eqb cap) (LLMProvider.capabilities provider)) required.

(** Truthiness of an optional string: [undefined] and [''] are falsy. *)
Definition truthyString (o : option string) : option string :=
  match o with
  | Some s => if String.eqb s "" then None else Some s
  | None => None
  end.

(** Truthiness of [caps && caps.length > 0]. *)
Definition nonEmptyList {A} (o : option (list A)) : option (list A) :=
  match o with
  | Some (x :: l) => Some (x :: l)
  | _ => None
  end.

Definition selectPreferred (request : LLMRequest.t) (w : World)
    : option LLMProvider.t * World :=
  match truthyString (LLMRequest.preferredProvider request) with
  | Some nm =>
      match mapGet nm (providers w) with
      | Some preferred =>
          let '(ok, w1) := isWithinRateLimit preferred w in
          if ok then (Some preferred, w1) else (None, w1)
      | None => (None, w)
      end
  | None => (None, w)
  end.

Definition selectCapable (request : LLMRequest.t) (available : list LLMProvider.t)
    (w : World) : option LLMProvider.t * World :=
  match nonEmptyList (LLMRequest.requiredCapabilities request) with
  | Some required => firstWithinLimit (hasAllCapabilities required) available w
  | None => (None, w)
  end.

Definition selectProvider (request : LLMRequest.t) (w : World)
    : option LLMProvider.t * World :=
  let available := getAvailableProviders w in
  if (length available =? 0)%nat then (None, w) else
  (* If specific provider requested *)
  match selectPreferred request w with
  | (Some preferred, w1) => (Some preferred, w1)
  | (None, w1) =>
      (* If specific capabilities required *)
      match selectCapable request available w1 with
      | (Some provider, w2) => (Some provider, w2)
      | (None, w2) =>
          (* Default: return highest priority available provider *)
          firstWithinLimit (fun _ => true) available w2
      end
  end.

(** [available.findIndex(p => p.name === nm)], -1 when there is none. *)
Fixpoint findIndexFrom (nm : string) (l : list LLMProvider.t) (i : Z) : Z :=
  match l with
  | [] => -1
  | p :: l' => if String.eqb (LLMProvider.name p) nm then i else findIndexFrom nm l' (i + 1)
  end.

Definition findIndex (nm : string) (l : list LLMProvider.t) : Z := findIndexFrom nm l 0.

Definition getFallbackProvider (current : LLMProvider.t) (w : World)
    : option LLMProvider.t * World :=
  let available := getAvailableProviders w in
  let currentIndex := findIndex (LLMProvider.name current) available in
  (* for (let i = currentIndex + 1; i < available.length; i++) *)
  firstWithinLimit (fun _ => true) (drop (Z.to_nat (currentIndex + 1)) available) w.

(** [callProvider]: fetch the credential with
    [credentialManager.getCredential], which is outside the module and may
    throw, then return the placeholder text. The credential itself is not
    used. Each call is logged in [invoked]. *)
Variable getCredential : string -> Result string.

Definition callProvider (provider : LLMProvider.t) (request : LLMRequest.t)
    (w : World) : Result string * World :=
  let w1 := mkWorld (providers w) (requestCounts w) (lastReset w) (clockReads w)
                    (invoked w ++ [LLMProvider.name provider]) in
  match getCredential (LLMProvider.name provider) with
  | Throw e => (Throw e, w1)
  | Ok _ => (Ok ("[Response from " +:+ LLMProvider.name provider +:+ "]"), w1)
  end.

(** [text.length], the number of UTF-16 code units of a JS string. A string
    is held here as the bytes of its UTF-8 encoding: a byte 10xxxxxx
    continues a code point and counts for nothing, a lead byte 11110xxx
    starts a code point above U+FFFF, which takes two code units, and every
    other byte starts a code point of one code unit. *)
Definition codeUnits (c : Ascii.ascii) : nat :=
  let n := Ascii.nat_of_ascii c in
  if (n <? 128)%nat then 1%nat
  else if (n <? 192)%nat then 0%nat
  else if (n <? 240)%nat then 1%nat
  else 2%nat.

Fixpoint utf16Length (text : string) : nat :=
  match text with
  | EmptyString => 0%nat
  | String c rest => (codeUnits c + utf16Length rest)%nat
  end.

(** [Math.ceil(text.length / 4)] *)
Definition estimateTokens (text : string) : Z :=
  (Z.of_nat (utf16Length text) + 3) / 4.

Definition respond (provider : LLMProvider.t) (text : string) (startTime : Z)
    (w : World) : Result LLMResponse.t * World :=
  let '(now, w1) := readClock w in
  (Ok (LLMResponse.mk text (LLMProvider.name provider) (LLMProvider.model provider)
         (estimateTokens text) (now - startTime) false), w1).

Definition generate (request : LLMRequest.t) (w : World)
    : Result LLMResponse.t * World :=
  match selectProvider request w with
  | (None, w1) => (Throw (Error "No LLM provider available"), w1)
  | (Some provider, w1) =>
      let '(startTime, w2) := readClock w1 in
      let w3 := recordRequest provider w2 in
      match callProvider provider request w3 with
      | (Ok text, w4) => respond provider text startTime w4
      | (Throw error, w4) =>
          (* Try fallback *)
          match getFallbackProvider provider w4 with
          | (Some fallback, w5) =>
              match callProvider fallback request w5 with
              | (Ok text, w6) => respond fallback text startTime w6
              | (Throw error', w6) => (Throw error', w6)
              end
          | (None, w5) => (Throw error, w5)
          end
      end
  end.

End Methods.

(** ** Derived notions used in the statements *)

(** The providers held by [this.providers]. *)
Definition enabled (w : World) (p : LLMProvider.t) : Prop :=
  In p (map snd (providers w)).

(** The count of [p] is below its limit in [w]: the test that ends
    [isWithinRateLimit]. *)
Definition within (w : World) (p : LLMProvider.t) : bool :=
  countOf w (LLMProvider.name p) <? LLMProvider.rateLimit p.

(** The effect of one [isWithinRateLimit] on the world (a clock read, and
    the reset when the window has expired); it does not depend on the
    provider that is checked. *)
Definition advance (clock : nat -> Z) (w : World) : World :=
  let '(now, w1) := readClock clock w in
  if 60000 <? now - lastReset w1 then resetCounts now w1 else w1.

(** No clock read from [w] on is more than 60000 ms after [lastReset w]:
    the run stays in the window of [w]. *)
Definition sameWindow (clock : nat -> Z) (w : World) : Prop :=
  forall t : nat, (clockReads w <= t)%nat -> clock t - lastReset w <= 60000.

(** Keys of [this.providers] are distinct and are the names of their values. *)
Definition wellFormed (w : World) : Prop :=
  NoDup (map fst (providers w)) /\
  Forall (fun kv => LLMProvider.name (snd kv) = fst kv) (providers w).

(** Every enabled provider has a count between 0 and its limit. *)
Definition countsBounded (w : World) : Prop :=
  forall p, enabled w p ->
    0 <= countOf w (LLMProvider.name p) <= LLMProvider.rateLimit p.

(** A name that no enabled provider bears has the count 0. *)
Definition countsSupported (w : World) : Prop :=
  forall nm, (forall q, enabled w q -> LLMProvider.name q <> nm) -> countOf w nm = 0.

(** The public operations that touch the world. *)
Inductive Op :=
| OpSelectProvider (request : LLMRequest.t)
| OpGenerate (request : LLMRequest.t) (getCredential : string -> Result string).

Definition runOp (clock : nat -> Z) (op : Op) (w : World) : World :=
  match op with
  | OpSelectProvider request => snd (selectProvider clock request w)
  | OpGenerate request getCredential => snd (generate clock getCredential request w)
  end.

Definition runOps (clock : nat -> Z) (ops : list Op) (w : World) : World :=
  fold_left (fun w op => runOp clock op w) ops w.

(** [w'] has the providers and the call log of [w], and the counts of [w]
    or those counts all set to zero. *)
Definition rolled (w w' : World) : Prop :=
  providers w' = providers w /\
  invoked w' = invoked w /\
  (requestCounts w' = requestCounts w \/
   requestCounts w' = (fun _ : Z => 0) <$> requestCounts w).

(** [w'] differs from [w] by clock reads only. *)
Definition later (w w' : World) : Prop :=
  providers w' = providers w /\
  requestCounts w' = requestCounts w /\
  lastReset w' = lastReset w /\
  invoked w' = invoked w /\
  (clockReads w <= clockReads w')%nat.

(** [w1] is [w] itself (no check made yet) or comes after its first check. *)
Definition atOrAfter (clock : nat -> Z) (w w1 : World) : Prop :=
  w1 = w \/ later (advance clock w) w1.

(** The cascade of [selectProvider] with the rate checks replaced by the
    test [within w0]: preferred provider, then first capable provider, then
    first provider. *)
Definition choose (request : LLMRequest.t) (w0 : World)
    (available : list LLMProvider.t) : option LLMProvider.t :=
  let eligible := find (within w0) available in
  let capable :=
    match nonEmptyList (LLMRequest.requiredCapabilities request) with
    | Some required =>
        match find (fun p => hasAllCapabilities required p && within w0 p) available with
        | Some p => Some p
        | None => eligible
        end
    | None => eligible
    end in
  match truthyString (LLMRequest.preferredProvider request) with
  | Some nm =>
      match mapGet nm (providers w0) with
      | Some preferred => if within w0 preferred then Some preferred else capable
      | None => capable
      end
  | None => capable
  end.

(** The order of the listing. *)
Definition byPriority (a b : LLMProvider.t) : Prop :=
  LLMProvider.priority a <= LLMProvider.priority b.

(** The world in which [generate] calls the selected provider: after the
    read of [startTime] and [recordRequest]. *)
Definition charged (clock : nat -> Z) (provider : LLMProvider.t) (w1 : World) : World :=
  recordRequest provider (snd (readClock clock w1)).

(** [w'] comes after [w] in the same window, with each count [nm] raised by
    [d nm]. *)
Definition steps (d : string -> Z) (w w' : World) : Prop :=
  providers w' = providers w /\
  lastReset w' = lastReset w /\
  (clockReads w <= clockReads w')%nat /\
  forall nm, countOf w' nm = countOf w nm + d nm.

(** The charge of one [generate]: one request on the selected provider. *)
Definition chargeOf (selected : option LLMProvider.t) (nm : string) : Z :=
  match selected with
  | Some p => if String.eqb nm (LLMProvider.name p) then 1 else 0
  | None => 0
  end.

Definition noCharge : string -> Z := fun _ => 0.

(** Well formed, every count zero, no negative limit. *)
Definition fresh (w : World) : Prop :=
  wellFormed w /\
  (forall nm, countOf w nm = 0) /\
  (forall p, enabled w p -> 0 <= LLMProvider.rateLimit p).

(** ** Concrete inputs *)

Definition clockAtZero : nat -> Z := fun _ => 0.

(** Reads 0 for the first [n] reads and [t] from then on. *)
Definition clockJump (n : nat) (t : Z) : nat -> Z :=
  fun k => if (k <? n)%nat then 0 else t.

Definition allFail (nm : string) : Result string :=
  Throw (Error ("no credential for " +:+ nm)).

Definition allOk (nm : string) : Result string := Ok "secret".

Definition failOnly (bad : string) (nm : string) : Result string :=
  if String.eqb nm bad then Throw (Error ("no credential for " +:+ nm)) else Ok "secret".

Definition plainRequest : LLMRequest.t :=
  LLMRequest.mk "hello" None None None None None.

Definition preferring (nm : string) : LLMRequest.t :=
  LLMRequest.mk "hello" None None None (Some nm) None.

Definition requiring (caps : list string) : LLMRequest.t :=
  LLMRequest.mk "hello" None None None None (Some caps).

Definition preferringAndRequiring (nm : string) (caps : list string) : LLMRequest.t :=
  LLMRequest.mk "hello" None None None (Some nm) (Some caps).

Definition onlyOllama (nm : string) : bool := false.
Definition everyProvider (nm : string) : bool := true.
Definition claudeOnly (nm : string) : bool := String.eqb nm "Claude".
Definition claudeAndOpenAI (nm : string) : bool :=
  String.eqb nm "Claude" || String.eqb nm "OpenAI".
Definition perplexityOnly (nm : string) : bool := String.eqb nm "Perplexity".

Definition providerNamed (nm : string) : LLMProvider.t :=
  match find (fun p => String.eqb (LLMProvider.name p) nm) providerConfigs with
  | Some p => p
  | None => LLMProvider.mk nm "" "" 0 0%Q 0 [] 0 LatencyLow CostFree
  end.

(** ** [getStatus] *)

Module ProviderDetail.
Record t := mk {
  name : string;
  available : bool;
  priority : Z;
  requestCount : Z;
  capabilities : list string
}.
End ProviderDetail.

Module Status.
Record t := mk {
  totalProviders : Z;
  configuredProviders : Z;
  providerDetails : list ProviderDetail.t
}.
End Status.

(** [Map.prototype.has] *)
Definition mapHas {V} (k : string) (m : list (string * V)) : bool :=
  match mapGet k m with
  | Some _ => true
  | None => false
  end.

Definition getStatus (w : World) : Status.t :=
  Status.mk
    (Z.of_nat (length providerConfigs))
    (Z.of_nat (length (providers w)))
    (map (fun config =>
            ProviderDetail.mk
              (LLMProvider.name config)
              (mapHas (LLMProvider.name config) (providers w))
              (LLMProvider.priority config)
              (countOf w (LLMProvider.name config))
              (LLMProvider.capabilities config))
         providerConfigs).

(** ** Further notions used in the statements *)

(** The test of [initializeProviders]. *)
Definition configuredOrOllama (isConfigured : string -> bool) (config : LLMProvider.t) : bool :=
  isConfigured (LLMProvider.name config) || String.eqb (LLMProvider.name config) "Ollama".

(** The request with its preferred provider removed. *)
Definition withoutPreference (request : LLMRequest.t) : LLMRequest.t :=
  LLMRequest.mk (LLMRequest.prompt request) (LLMRequest.systemPrompt request)
    (LLMRequest.maxTokens request) (LLMRequest.temperature request)
    None (LLMRequest.requiredCapabilities request).

(** The clock never goes backwards. *)
Definition monotoneClock (clock : nat -> Z) : Prop :=
  forall i j : nat, (i <= j)%nat -> clock i <= clock j.

(** The next rate check made from [w] leaves every count at zero. *)
Definition zeroAfterCheck (clock : nat -> Z) (w : World) : Prop :=
  forall nm, countOf (advance clock w) nm = 0.

(** The sum of the request counts that a status shows. *)
Definition statusTotal (status : Status.t) : Z :=
  foldr (fun detail acc => ProviderDetail.requestCount detail + acc) 0
        (Status.providerDetails status).

(** The number of [generate] calls among operations. *)
Definition generateCalls (ops : list Op) : Z :=
  Z.of_nat (length (List.filter (fun op => match op with OpGenerate _ _ => true
                                                   | OpSelectProvider _ => false end) ops)).

(** The keys of [this.requestCounts] are the keys of [this.providers]. *)
Definition sameKeys (w : World) : Prop :=
  dom (requestCounts w) = list_to_set (map fst (providers w)).

(** The sum of the counts of the providers of a list. *)
Definition countsOver (l : list LLMProvider.t) (w : World) : Z :=
  foldr (fun c acc => countOf w (LLMProvider.name c) + acc) 0 l.

Definition clockTicking : nat -> Z := fun n => Z.of_nat n.

(** ** Basic facts *)

Section Facts.

Variable clock : nat -> Z.

Lemma isWithinRateLimit_advance p w :
  isWithinRateLimit clock p w = (within (advance clock w) p, advance clock w).
Proof. reflexivity. Qed.

Lemma advance_providers w : providers (advance clock w) = providers w.
Proof.
  unfold advance, isWithinRateLimit, readClock; cbn.
  destruct (60000 <? _); reflexivity.
Qed.

Lemma advance_invoked w : invoked (advance clock w) = invoked w.
Proof.
  unfold advance, isWithinRateLimit, readClock; cbn.
  destruct (60000 <? _); reflexivity.
Qed.

Lemma advance_clockReads w : clockReads (advance clock w) = S (clockReads w).
Proof.
  unfold advance, isWithinRateLimit, readClock; cbn.
  destruct (60000 <? _); reflexivity.
Qed.

(** One check either leaves the window alone or starts a new one for
    every provider at once. *)
Lemma advance_cases w :
  let now := clock (clockReads w) in
  (60000 < now - lastReset w /\
   requestCounts (advance clock w) = (fun _ : Z => 0) <$> requestCounts w /\
   lastReset (advance clock w) = now)
  \/
  (now - lastReset w <= 60000 /\
   requestCounts (advance clock w) = requestCounts w /\
   lastReset (advance clock w) = lastReset w).
Proof.
  unfold advance, isWithinRateLimit, readClock; cbn.
  destruct (60000 <? clock (clockReads w) - lastReset w) eqn:E.
  - left. apply Z.ltb_lt in E. cbn. auto.
  - right. apply Z.ltb_ge in E. auto.
Qed.

Lemma countOf_zeroed w nm c :
  requestCounts w = (fun _ : Z => 0) <$> c -> countOf w nm = 0.
Proof.
  intros H. unfold countOf. rewrite H, lookup_fmap.
  destruct (c !! nm); reflexivity.
Qed.

Lemma countOf_advance w nm :
  countOf (advance clock w) nm = countOf w nm \/ countOf (advance clock w) nm = 0.
Proof.
  destruct (advance_cases w) as [(_ & H & _) | (_ & H & _)].
  - right. eapply countOf_zeroed; eauto.
  - left. unfold countOf. now rewrite H.
Qed.

(** In the window of [w] a check only counts a clock read. *)
Lemma advance_sameWindow w :
  sameWindow clock w ->
  requestCounts (advance clock w) = requestCounts w /\
  lastReset (advance clock w) = lastReset w /\
  sameWindow clock (advance clock w).
Proof.
  intros H.
  destruct (advance_cases w) as [(Hlt & _) | (_ & Hc & Hl)].
  - specialize (H (clockReads w) (le_n _)). lia.
  - repeat split; auto.
    intros t Ht. rewrite Hl. apply H. rewrite advance_clockReads in Ht. lia.
Qed.

(** *** [mapGet], [mapSet] *)

Lemma mapGet_In {V} k (m : list (string * V)) v :
  mapGet k m = Some v -> In (k, v) m.
Proof.
  induction m as [|[k' v'] m IH]; cbn; [discriminate|].
  destruct (String.eqb k' k) eqn:E.
  - apply String.eqb_eq in E. intros [= ->]. left. now subst.
  - intros H. right. auto.
Qed.

Lemma mapSet_keys {V} k (v : V) m :
  map fst (mapSet k v m) = if existsb (String.eqb k) (map fst m)
                           then map fst m else (map fst m ++ [k])%list.
Proof.
  induction m as [|[k' v'] m IH]; cbn; [reflexivity|].
  rewrite (String.eqb_sym k k').
  destruct (String.eqb k' k) eqn:E; cbn.
  - apply String.eqb_eq in E. now subst.
  - rewrite IH. destruct (existsb _ _); reflexivity.
Qed.

Lemma mapSet_In {V} k (v : V) m kv :
  In kv (mapSet k v m) -> kv = (k, v) \/ In kv m.
Proof.
  induction m as [|[k' v'] m IH]; cbn.
  - intros [<- | []]. now left.
  - destruct (String.eqb k' k); cbn; intros [<- | H]; auto.
    destruct (IH H); auto.
Qed.

Lemma mapSet_NoDup {V} k (v : V) m :
  NoDup (map fst m) -> NoDup (map fst (mapSet k v m)).
Proof.
  intros H. rewrite mapSet_keys.
  destruct (existsb (String.eqb k) (map fst m)) eqn:E; [exact H|].
  apply NoDup_app. split; [exact H|]. split; [|apply NoDup_singleton].
  intros x Hx Hk. apply list_elem_of_singleton in Hk. subst x.
  apply list_elem_of_In in Hx.
  assert (existsb (String.eqb k) (map fst m) = true); [|congruence].
  apply existsb_exists. exists k. split; [exact Hx | apply String.eqb_refl].
Qed.

(** *** The stable sort *)

Lemma insertByPriority_perm x l : Permutation (insertByPriority x l) (x :: l).
Proof.
  induction l as [|y l IH]; cbn; [reflexivity|].
  destruct (_ <=? _); [reflexivity|].
  rewrite IH. apply perm_swap.
Qed.

Lemma sortByPriority_perm l : Permutation (sortByPriority l) l.
Proof.
  induction l as [|x l IH]; cbn; [reflexivity|].
  rewrite insertByPriority_perm. now constructor.
Qed.

Lemma insertByPriority_sorted x l :
  StronglySorted byPriority l -> StronglySorted byPriority (insertByPriority x l).
Proof.
  induction 1 as [|y l Hs IH Hy]; cbn.
  - repeat constructor.
  - destruct (LLMProvider.priority x <=? LLMProvider.priority y) eqn:E.
    + apply Z.leb_le in E. constructor; [now constructor|].
      constructor; [exact E|].
      eapply Forall_impl; [exact Hy|]. unfold byPriority. intros; cbn in *; lia.
    + apply Z.leb_gt in E. constructor; [exact IH|].
      eapply Permutation_Forall; [symmetry; apply insertByPriority_perm|].
      constructor; [unfold byPriority; lia | exact Hy].
Qed.

Lemma sortByPriority_sorted l : StronglySorted byPriority (sortByPriority l).
Proof.
  induction l as [|x l IH]; cbn; [constructor|].
  now apply insertByPriority_sorted.
Qed.

Lemma getAvailableProviders_In w p :
  In p (getAvailableProviders w) <-> enabled w p.
Proof.
  unfold getAvailableProviders, enabled.
  split; apply Permutation_in; [|symmetry]; apply sortByPriority_perm.
Qed.

Lemma getAvailableProviders_length w :
  length (getAvailableProviders w) = length (providers w).
Proof.
  unfold getAvailableProviders.
  rewrite (Permutation_length (sortByPriority_perm _)). apply length_map.
Qed.

End Facts.

(** ** What the scans and the selection do to the world *)

Section Frame.

Variable clock : nat -> Z.

Lemma rolled_refl w : rolled w w.
Proof. unfold rolled; auto. Qed.

Lemma rolled_trans w1 w2 w3 : rolled w1 w2 -> rolled w2 w3 -> rolled w1 w3.
Proof.
  intros (Hp & Hi & Hc) (Hp' & Hi' & Hc').
  repeat split; [congruence | congruence |].
  destruct Hc as [Hc|Hc], Hc' as [Hc'|Hc']; rewrite Hc', Hc; auto.
  right. rewrite <- map_fmap_compose. reflexivity.
Qed.

Lemma rolled_advance w : rolled w (advance clock w).
Proof.
  repeat split; [apply advance_providers | apply advance_invoked |].
  destruct (advance_cases clock w) as [(_ & H & _) | (_ & H & _)]; auto.
Qed.

Lemma rolled_countOf w w' nm :
  rolled w w' -> countOf w' nm = countOf w nm \/ countOf w' nm = 0.
Proof.
  intros (_ & _ & [H|H]).
  - left. unfold countOf. now rewrite H.
  - right. eapply countOf_zeroed; eauto.
Qed.

Lemma firstWithinLimit_cons cond p l w :
  firstWithinLimit clock cond (p :: l) w =
  if cond p then
    if within (advance clock w) p then (Some p, advance clock w)
    else firstWithinLimit clock cond l (advance clock w)
  else firstWithinLimit clock cond l w.
Proof. reflexivity. Qed.

Lemma selectPreferred_eq request w :
  selectPreferred clock request w =
  match truthyString (LLMRequest.preferredProvider request) with
  | Some nm =>
      match mapGet nm (providers w) with
      | Some preferred =>
          (if within (advance clock w) preferred then Some preferred else None,
           advance clock w)
      | None => (None, w)
      end
  | None => (None, w)
  end.
Proof.
  unfold selectPreferred.
  destruct (truthyString _); [|reflexivity].
  destruct (mapGet _ _); [|reflexivity].
  rewrite isWithinRateLimit_advance. now destruct (within _ _).
Qed.

Lemma firstWithinLimit_rolled cond l : forall w,
  rolled w (snd (firstWithinLimit clock cond l w)).
Proof.
  induction l as [|p l IH]; intros w; [apply rolled_refl|].
  rewrite firstWithinLimit_cons.
  destruct (cond p); [|apply IH].
  destruct (within _ p); cbn [snd].
  - apply rolled_advance.
  - eapply rolled_trans; [apply rolled_advance | apply IH].
Qed.

(** A provider that a scan returns is in the scanned list, satisfies the
    condition of the scan, and is below its limit in the resulting world. *)
Lemma firstWithinLimit_Some cond l : forall w p w',
  firstWithinLimit clock cond l w = (Some p, w') ->
  In p l /\ cond p = true /\ within w' p = true.
Proof.
  induction l as [|q l IH]; intros w p w'; [discriminate|].
  rewrite firstWithinLimit_cons.
  destruct (cond q) eqn:Hc.
  - destruct (within (advance clock w) q) eqn:Hw.
    + intros [= <- <-]. cbn. auto.
    + intros H. destruct (IH _ _ _ H) as (? & ? & ?). cbn. auto.
  - intros H. destruct (IH _ _ _ H) as (? & ? & ?). cbn. auto.
Qed.

Lemma selectPreferred_rolled request w :
  rolled w (snd (selectPreferred clock request w)).
Proof.
  rewrite selectPreferred_eq.
  destruct (truthyString _); [|apply rolled_refl].
  destruct (mapGet _ _); [|apply rolled_refl].
  apply rolled_advance.
Qed.

Lemma selectPreferred_Some request w p w' :
  selectPreferred clock request w = (Some p, w') ->
  enabled w p /\ within w' p = true.
Proof.
  rewrite selectPreferred_eq.
  destruct (truthyString _) as [nm|]; [|discriminate].
  destruct (mapGet nm (providers w)) as [q|] eqn:Hg; [|discriminate].
  destruct (within (advance clock w) q) eqn:Hw; [|discriminate].
  intros [= <- <-]. split; [|exact Hw].
  apply mapGet_In in Hg. unfold enabled.
  apply in_map_iff. exists (nm, q). auto.
Qed.

Lemma selectCapable_rolled request l w :
  rolled w (snd (selectCapable clock request l w)).
Proof.
  unfold selectCapable.
  destruct (nonEmptyList _); [apply firstWithinLimit_rolled | apply rolled_refl].
Qed.

Lemma selectProvider_rolled request w :
  rolled w (snd (selectProvider clock request w)).
Proof.
  unfold selectProvider.
  destruct (length _ =? 0)%nat; [apply rolled_refl|].
  pose proof (selectPreferred_rolled request w) as H1.
  destruct (selectPreferred clock request w) as [[p|] w1]; [exact H1|].
  cbn in H1.
  pose proof (selectCapable_rolled request (getAvailableProviders w) w1) as H2.
  destruct (selectCapable clock request (getAvailableProviders w) w1) as [[p|] w2];
    cbn in H2; [eapply rolled_trans; eauto|].
  eapply rolled_trans; [exact H1|].
  eapply rolled_trans; [exact H2|]. apply firstWithinLimit_rolled.
Qed.

(** The selected provider is enabled and is below its limit in the world
    that the selection leaves. *)
Lemma selectProvider_Some request w p w' :
  selectProvider clock request w = (Some p, w') ->
  enabled w p /\ within w' p = true.
Proof.
  unfold selectProvider.
  destruct (length _ =? 0)%nat; [discriminate|].
  destruct (selectPreferred clock request w) as [[q|] w1] eqn:H1.
  - intros [= <- <-]. eapply selectPreferred_Some; eauto.
  - unfold selectCapable.
    destruct (nonEmptyList _) as [required|].
    + destruct (firstWithinLimit clock (hasAllCapabilities required) _ w1)
        as [[q|] w2] eqn:H2.
      * intros [= <- <-]. apply firstWithinLimit_Some in H2 as (Hin & _ & Hw).
        split; [now apply getAvailableProviders_In | exact Hw].
      * intros H3. apply firstWithinLimit_Some in H3 as (Hin & _ & Hw).
        split; [now apply getAvailableProviders_In | exact Hw].
    + intros H3. apply firstWithinLimit_Some in H3 as (Hin & _ & Hw).
      split; [now apply getAvailableProviders_In | exact Hw].
Qed.

Lemma getFallbackProvider_rolled current w :
  rolled w (snd (getFallbackProvider clock current w)).
Proof. unfold getFallbackProvider. apply firstWithinLimit_rolled. Qed.

End Frame.

(** ** Runs that stay in one window *)

Section Window.

Variable clock : nat -> Z.

Lemma find_pointwise {A} (f g : A -> bool) l :
  (forall x, f x = g x) -> find f l = find g l.
Proof.
  intros H. induction l as [|x l IH]; cbn; [reflexivity|].
  rewrite H, IH. reflexivity.
Qed.

Lemma later_refl w : later w w.
Proof. unfold later; auto. Qed.

Lemma later_trans w1 w2 w3 : later w1 w2 -> later w2 w3 -> later w1 w3.
Proof.
  intros (? & ? & ? & ? & ?) (? & ? & ? & ? & ?).
  repeat split; try congruence. lia.
Qed.

Lemma later_sameWindow w w' : sameWindow clock w -> later w w' -> sameWindow clock w'.
Proof.
  intros H (_ & _ & Hl & _ & Hc) t Ht. rewrite Hl. apply H. lia.
Qed.

Lemma later_within w w' p : later w w' -> within w' p = within w p.
Proof. intros (_ & Hc & _). unfold within, countOf. now rewrite Hc. Qed.

Lemma later_countOf w w' nm : later w w' -> countOf w' nm = countOf w nm.
Proof. intros (_ & Hc & _). unfold countOf. now rewrite Hc. Qed.

Lemma advance_later w : sameWindow clock w -> later w (advance clock w).
Proof.
  intros H. destruct (advance_sameWindow clock w H) as (Hc & Hl & _).
  repeat split; auto using advance_providers, advance_invoked.
  rewrite advance_clockReads. lia.
Qed.

(** In the window of [w] a scan is a [find] with the counts of [w]. *)
Lemma firstWithinLimit_sameWindow cond l : forall w,
  sameWindow clock w ->
  fst (firstWithinLimit clock cond l w) = find (fun p => cond p && within w p) l /\
  later w (snd (firstWithinLimit clock cond l w)).
Proof.
  induction l as [|p l IH]; intros w H; [split; [reflexivity | apply later_refl]|].
  rewrite firstWithinLimit_cons. cbn [find].
  destruct (cond p); cbn [andb]; [|apply IH, H].
  pose proof (advance_later w H) as Hl.
  rewrite (later_within _ _ p Hl).
  destruct (within w p); [split; [reflexivity | exact Hl]|].
  destruct (IH (advance clock w) (later_sameWindow _ _ H Hl)) as (Hf & Hl').
  split; [|eapply later_trans; eauto].
  rewrite Hf. apply find_pointwise. intros q. now rewrite (later_within _ _ q Hl).
Qed.

Lemma atOrAfter_sameWindow w w1 :
  sameWindow clock (advance clock w) -> atOrAfter clock w w1 ->
  later (advance clock w) (advance clock w1).
Proof.
  intros H [-> | Hl]; [apply later_refl|].
  eapply later_trans; [exact Hl|].
  apply advance_later. eapply later_sameWindow; eauto.
Qed.

(** When no reset follows the first check made from [w], every scan is a
    [find] with the counts that the first check leaves. *)
Lemma firstWithinLimit_settled cond l : forall w w1,
  sameWindow clock (advance clock w) -> atOrAfter clock w w1 ->
  fst (firstWithinLimit clock cond l w1)
    = find (fun p => cond p && within (advance clock w) p) l /\
  atOrAfter clock w (snd (firstWithinLimit clock cond l w1)).
Proof.
  induction l as [|p l IH]; intros w w1 H Hw; [split; [reflexivity | exact Hw]|].
  rewrite firstWithinLimit_cons. cbn [find].
  destruct (cond p); cbn [andb]; [|apply IH; assumption].
  pose proof (atOrAfter_sameWindow w w1 H Hw) as Hl.
  rewrite (later_within _ _ p Hl).
  destruct (within (advance clock w) p).
  - split; [reflexivity | right; exact Hl].
  - apply IH; [exact H | right; exact Hl].
Qed.

Lemma selectProvider_settled request w :
  sameWindow clock (advance clock w) ->
  fst (selectProvider clock request w)
    = choose request (advance clock w) (getAvailableProviders w) /\
  atOrAfter clock w (snd (selectProvider clock request w)).
Proof.
  intros H. unfold selectProvider, choose.
  set (available := getAvailableProviders w).
  assert (Hdef : forall w1, atOrAfter clock w w1 ->
            fst (firstWithinLimit clock (fun _ => true) available w1)
              = find (within (advance clock w)) available /\
            atOrAfter clock w (snd (firstWithinLimit clock (fun _ => true) available w1))).
  { intros w1 Hw1.
    destruct (firstWithinLimit_settled (fun _ => true) available w w1 H Hw1) as (Hf & Ha).
    split; [|exact Ha]. rewrite Hf. now apply find_pointwise. }
  assert (Hcap : forall w1, atOrAfter clock w w1 ->
    fst (match selectCapable clock request available w1 with
         | (Some p, w2) => (Some p, w2)
         | (None, w2) => firstWithinLimit clock (fun _ => true) available w2
         end)
    = match nonEmptyList (LLMRequest.requiredCapabilities request) with
      | Some required =>
          match find (fun p => hasAllCapabilities required p
                               && within (advance clock w) p) available with
          | Some p => Some p
          | None => find (within (advance clock w)) available
          end
      | None => find (within (advance clock w)) available
      end /\
    atOrAfter clock w
      (snd (match selectCapable clock request available w1 with
            | (Some p, w2) => (Some p, w2)
            | (None, w2) => firstWithinLimit clock (fun _ => true) available w2
            end))).
  { intros w1 Hw1. unfold selectCapable.
    destruct (nonEmptyList _) as [required|]; [|now apply Hdef].
    destruct (firstWithinLimit_settled (hasAllCapabilities required) available w w1 H Hw1)
      as (Hf & Ha).
    destruct (firstWithinLimit clock (hasAllCapabilities required) available w1)
      as [[p|] w2]; cbn [fst snd] in Hf, Ha; rewrite <- Hf; [auto|].
    now apply Hdef. }
  destruct (length available =? 0)%nat eqn:Hlen.
  { apply Nat.eqb_eq in Hlen. apply nil_length_inv in Hlen.
    assert (Hp : providers w = []).
    { apply length_zero_iff_nil. rewrite <- getAvailableProviders_length.
      fold available. now rewrite Hlen. }
    rewrite Hlen, advance_providers, Hp. cbn.
    split; [|now left].
    destruct (truthyString _); destruct (nonEmptyList _); reflexivity. }
  rewrite selectPreferred_eq.
  destruct (truthyString _) as [nm|]; [|apply Hcap; now left].
  rewrite advance_providers.
  destruct (mapGet nm (providers w)) as [preferred|]; [|apply Hcap; now left].
  destruct (within (advance clock w) preferred).
  - split; [reflexivity | right; apply later_refl].
  - apply Hcap. right. apply later_refl.
Qed.

End Window.

(** ** The invariant of the counters *)

Section Invariant.

Variable clock : nat -> Z.

Lemma NoDup_keys_functional {V} (m : list (string * V)) k v1 v2 :
  NoDup (map fst m) -> In (k, v1) m -> In (k, v2) m -> v1 = v2.
Proof.
  induction m as [|[k' v'] m IH]; cbn; [contradiction|].
  intros Hnd. apply NoDup_cons in Hnd as [Hnotin Hnd].
  assert (Hk : forall v, In (k', v) m -> False).
  { intros v Hv. apply Hnotin, list_elem_of_In, in_map_iff. now exists (k', v). }
  intros [E1 | H1] [E2 | H2].
  - congruence.
  - exfalso. injection E1 as -> _. eauto.
  - exfalso. injection E2 as -> _. eauto.
  - eauto.
Qed.

(** Two enabled providers of the same name are the same provider. *)
Lemma wellFormed_name_inj w p q :
  wellFormed w -> enabled w p -> enabled w q ->
  LLMProvider.name p = LLMProvider.name q -> p = q.
Proof.
  intros [Hnd Hk] Hp Hq Hn. unfold enabled in *.
  apply in_map_iff in Hp as ([kp p'] & Ep & Hp), Hq as ([kq q'] & Eq & Hq).
  cbn in Ep, Eq. subst p' q'.
  rewrite Forall_forall in Hk.
  pose proof (Hk _ (proj2 (list_elem_of_In _ _) Hp)) as Kp.
  pose proof (Hk _ (proj2 (list_elem_of_In _ _) Hq)) as Kq. cbn in Kp, Kq.
  assert (E : kq = kp) by congruence. rewrite E in Hq.
  exact (NoDup_keys_functional _ kp p q Hnd Hp Hq).
Qed.

Lemma countsBounded_rolled w w' :
  rolled w w' -> countsBounded w -> countsBounded w'.
Proof.
  intros Hr Hb p Hp. pose proof Hr as (Hprov & _ & _).
  unfold enabled in Hp. rewrite Hprov in Hp. specialize (Hb p Hp).
  destruct (rolled_countOf w w' (LLMProvider.name p) Hr) as [-> | ->]; lia.
Qed.

Lemma wellFormed_providers w w' :
  providers w' = providers w -> wellFormed w -> wellFormed w'.
Proof. unfold wellFormed. now intros ->. Qed.

Lemma countOf_recordRequest p w nm :
  countOf (recordRequest p w) nm =
  if String.eqb nm (LLMProvider.name p) then countOf w nm + 1 else countOf w nm.
Proof.
  unfold recordRequest, countOf, withCounts; cbn.
  destruct (String.eqb nm (LLMProvider.name p)) eqn:E.
  - apply String.eqb_eq in E. subst nm. now rewrite lookup_insert_eq.
  - apply String.eqb_neq in E. rewrite lookup_insert_ne; [reflexivity | congruence].
Qed.

(** The increment after a successful check keeps the bound. *)
Lemma countsBounded_recordRequest w p :
  wellFormed w -> countsBounded w -> enabled w p -> within w p = true ->
  countsBounded (recordRequest p w).
Proof.
  intros Hwf Hb Hp Hw q Hq. change (enabled w q) in Hq.
  rewrite countOf_recordRequest. specialize (Hb q Hq).
  destruct (String.eqb _ _) eqn:E; [|exact Hb].
  apply String.eqb_eq in E.
  assert (q = p) by (eapply wellFormed_name_inj; eauto). subst q.
  unfold within in Hw. apply Z.ltb_lt in Hw. lia.
Qed.

Lemma countsBounded_ext w w' :
  providers w' = providers w -> requestCounts w' = requestCounts w ->
  countsBounded w -> countsBounded w'.
Proof.
  intros Hp Hc Hb p Hq. unfold enabled in Hq. rewrite Hp in Hq.
  unfold countOf. rewrite Hc. now apply Hb.
Qed.

Lemma generate_eq getCredential request w :
  generate clock getCredential request w =
  match selectProvider clock request w with
  | (None, w1) => (Throw (Error "No LLM provider available"), w1)
  | (Some provider, w1) =>
      let startTime := clock (clockReads w1) in
      match callProvider getCredential provider request (charged clock provider w1) with
      | (Ok text, w4) => respond clock provider text startTime w4
      | (Throw error, w4) =>
          match getFallbackProvider clock provider w4 with
          | (Some fallback, w5) =>
              match callProvider getCredential fallback request w5 with
              | (Ok text, w6) => respond clock fallback text startTime w6
              | (Throw error', w6) => (Throw error', w6)
              end
          | (None, w5) => (Throw error, w5)
          end
      end
  end.
Proof. reflexivity. Qed.

End Invariant.

(** ** [generate], step by step *)

Section Generate.

Variable clock : nat -> Z.
Variable getCredential : string -> Result string.

Lemma callProvider_fst p request w :
  fst (callProvider getCredential p request w) =
  match getCredential (LLMProvider.name p) with
  | Throw e => Throw e
  | Ok _ => Ok ("[Response from " +:+ LLMProvider.name p +:+ "]")
  end.
Proof. unfold callProvider. now destruct (getCredential _). Qed.

Lemma callProvider_snd p request w :
  snd (callProvider getCredential p request w) =
  mkWorld (providers w) (requestCounts w) (lastReset w) (clockReads w)
          (invoked w ++ [LLMProvider.name p]).
Proof. unfold callProvider. now destruct (getCredential _). Qed.

Lemma callProvider_eq p request w :
  callProvider getCredential p request w =
  (fst (callProvider getCredential p request w),
   snd (callProvider getCredential p request w)).
Proof. now destruct (callProvider _ _ _ _). Qed.

(** The final world of [generate], from the three worlds on its way: [w1]
    after the selection, [w4] after the call of the selected provider,
    [w5] after the search of a fallback. *)
Lemma generate_snd request w :
  let w' := snd (generate clock getCredential request w) in
  match selectProvider clock request w with
  | (None, w1) => w' = w1
  | (Some p, w1) =>
      let w4 := snd (callProvider getCredential p request (charged clock p w1)) in
      match getCredential (LLMProvider.name p) with
      | Ok _ => w' = snd (readClock clock w4)
      | Throw _ =>
          match getFallbackProvider clock p w4 with
          | (None, w5) => w' = w5
          | (Some f, w5) =>
              let w6 := snd (callProvider getCredential f request w5) in
              match getCredential (LLMProvider.name f) with
              | Ok _ => w' = snd (readClock clock w6)
              | Throw _ => w' = w6
              end
          end
      end
  end.
Proof.
  rewrite generate_eq.
  destruct (selectProvider clock request w) as [[p|] w1]; [|reflexivity].
  cbn zeta. rewrite (callProvider_eq p), callProvider_fst.
  destruct (getCredential (LLMProvider.name p)); [reflexivity|].
  destruct (getFallbackProvider clock p _) as [[f|] w5]; [|reflexivity].
  rewrite (callProvider_eq f), callProvider_fst.
  destruct (getCredential (LLMProvider.name f)); reflexivity.
Qed.

End Generate.

(** ** Properties that every operation preserves *)

Section Preservation.

Variable clock : nat -> Z.

(** A property of worlds that survives a window reset, a change of the
    clock and of the call log, and the increment that follows a passed rate
    check of an enabled provider. *)
Variable P : World -> Prop.
Hypothesis P_rolled : forall w w', rolled w w' -> P w -> P w'.
Hypothesis P_same : forall w w',
  providers w' = providers w -> requestCounts w' = requestCounts w -> P w -> P w'.
Hypothesis P_recordRequest : forall w p,
  enabled w p -> within w p = true -> P w -> P (recordRequest p w).

Lemma selectProvider_preserves request w :
  P w -> P (snd (selectProvider clock request w)).
Proof. apply P_rolled, selectProvider_rolled. Qed.

Lemma generate_preserves getCredential request w :
  P w -> P (snd (generate clock getCredential request w)).
Proof.
  intros H.
  pose proof (generate_snd clock getCredential request w) as G. cbn zeta in G.
  pose proof (selectProvider_preserves request w H) as H1.
  pose proof (selectProvider_rolled clock request w) as (Hp & _).
  pose proof (selectProvider_Some clock request w) as Hs.
  destruct (selectProvider clock request w) as [[p|] w1]; cbn [snd] in H1, Hp;
    [|now rewrite G].
  destruct (Hs p w1 eq_refl) as (Hen & Hw). clear Hs.
  assert (H3 : P (charged clock p w1)).
  { unfold charged. apply P_recordRequest.
    - unfold enabled in *. cbn. now rewrite Hp.
    - exact Hw.
    - now apply (P_same w1). }
  rewrite callProvider_snd in G.
  set (w4 := mkWorld _ _ _ _ _) in G.
  assert (H4 : P w4) by now apply (P_same (charged clock p w1)).
  destruct (getCredential (LLMProvider.name p)).
  { rewrite G. now apply (P_same w4). }
  pose proof (getFallbackProvider_rolled clock p w4) as Hr.
  destruct (getFallbackProvider clock p w4) as [[f|] w5]; cbn [snd] in Hr.
  - assert (H5 : P w5) by (eapply P_rolled; eauto).
    rewrite callProvider_snd in G.
    destruct (getCredential (LLMProvider.name f)); rewrite G; now apply (P_same w5).
  - rewrite G. eapply P_rolled; eauto.
Qed.

Lemma runOp_preserves op w : P w -> P (runOp clock op w).
Proof.
  destruct op as [request | request getCredential]; cbn.
  - apply selectProvider_preserves.
  - apply generate_preserves.
Qed.

Lemma runOps_preserves ops : forall w, P w -> P (runOps clock ops w).
Proof.
  induction ops as [|op ops IH]; intros w H; [exact H|].
  cbn. apply IH. now apply runOp_preserves.
Qed.

End Preservation.

(** ** The world after construction, and the worlds reached from it *)

Section Reachable.

Variable clock : nat -> Z.

Lemma runOps_providers ops w : providers (runOps clock ops w) = providers w.
Proof.
  apply (runOps_preserves clock (fun w' => providers w' = providers w)); auto.
  - intros w1 w2 (Hp & _) H. congruence.
  - intros w1 w2 Hp _ H. congruence.
Qed.

Lemma runOp_providers op w : providers (runOp clock op w) = providers w.
Proof. apply (runOps_providers [op]). Qed.

(** The counts stay within their bounds. *)
Lemma runOps_invariant ops w :
  wellFormed w /\ countsBounded w ->
  wellFormed (runOps clock ops w) /\ countsBounded (runOps clock ops w).
Proof.
  apply (runOps_preserves clock (fun w => wellFormed w /\ countsBounded w)).
  - intros w1 w2 Hr [Hwf Hb]. split.
    + apply (wellFormed_providers w1); [apply Hr | exact Hwf].
    + eapply countsBounded_rolled; eauto.
  - intros w1 w2 Hp Hc [Hwf Hb]. split.
    + now apply (wellFormed_providers w1).
    + now apply (countsBounded_ext w1).
  - intros w1 p Hen Hw [Hwf Hb]. split.
    + now apply (wellFormed_providers w1).
    + now apply countsBounded_recordRequest.
Qed.

(** A name that no enabled provider bears keeps the count 0. *)
Lemma runOps_countsSupported ops w :
  countsSupported w -> countsSupported (runOps clock ops w).
Proof.
  apply (runOps_preserves clock countsSupported).
  - intros w1 w2 Hr Hs nm Hnm. pose proof Hr as (Hp & _).
    unfold enabled in Hnm. rewrite Hp in Hnm.
    destruct (rolled_countOf w1 w2 nm Hr) as [-> | ->]; [now apply Hs | reflexivity].
  - intros w1 w2 Hp Hc Hs nm Hnm. unfold enabled in Hnm. rewrite Hp in Hnm.
    unfold countOf. rewrite Hc. now apply Hs.
  - intros w1 p Hen _ Hs nm Hnm.
    change (forall q, enabled w1 q -> LLMProvider.name q <> nm) in Hnm.
    rewrite countOf_recordRequest.
    destruct (String.eqb nm (LLMProvider.name p)) eqn:E; [|now apply Hs].
    apply String.eqb_eq in E. exfalso. now apply (Hnm p Hen).
Qed.

Lemma initializeLoop_fresh isConfigured configs : forall w,
  Forall (fun c => 0 <= LLMProvider.rateLimit c) configs ->
  fresh w -> fresh (initializeLoop isConfigured configs w).
Proof.
  induction configs as [|c configs IH]; intros w Hl Hf; [exact Hf|].
  apply Forall_cons in Hl as [Hc Hl]. cbn [initializeLoop].
  destruct (_ || _); [|now apply IH].
  apply IH; [exact Hl|].
  destruct Hf as ((Hnd & Hk) & Hz & Hr).
  split; [split|split]; cbn.
  - now apply mapSet_NoDup.
  - apply Forall_forall. intros kv Hin. apply list_elem_of_In in Hin.
    apply mapSet_In in Hin as [-> | Hin]; [reflexivity|].
    rewrite Forall_forall in Hk. apply Hk. now apply list_elem_of_In.
  - intros nm. unfold countOf; cbn.
    destruct (decide (LLMProvider.name c = nm)) as [-> | Hne].
    + now rewrite lookup_insert_eq.
    + rewrite lookup_insert_ne; [apply Hz | exact Hne].
  - intros p Hp. unfold enabled in Hp; cbn in Hp.
    apply in_map_iff in Hp as (kv & <- & Hin).
    apply mapSet_In in Hin as [-> | Hin]; [exact Hc|].
    apply Hr. unfold enabled. apply in_map_iff. now exists kv.
Qed.

(** The enabled providers are taken from the configurations. *)
Lemma initializeLoop_enabled isConfigured configs : forall w q,
  enabled (initializeLoop isConfigured configs w) q -> enabled w q \/ In q configs.
Proof.
  induction configs as [|c configs IH]; intros w q H; [now left|].
  cbn [initializeLoop] in H.
  destruct (_ || _).
  - apply IH in H as [H | H]; [|right; now right].
    unfold enabled in H; cbn in H.
    apply in_map_iff in H as (kv & <- & Hin).
    apply mapSet_In in Hin as [-> | Hin]; [right; now left|].
    left. unfold enabled. apply in_map_iff. now exists kv.
  - apply IH in H as [H | H]; [now left | right; now right].
Qed.

Lemma providerConfigs_limits :
  Forall (fun c => 0 <= LLMProvider.rateLimit c) providerConfigs.
Proof. unfold providerConfigs. repeat constructor; cbn; lia. Qed.

Lemma providerConfigs_names : NoDup (map LLMProvider.name providerConfigs).
Proof. apply (bool_decide_unpack _). vm_compute. exact I. Qed.

Lemma providerConfigs_name_inj p q :
  In p providerConfigs -> In q providerConfigs ->
  LLMProvider.name p = LLMProvider.name q -> p = q.
Proof.
  pose proof providerConfigs_names as Hnd.
  induction providerConfigs as [|c l IH]; [intros []|].
  cbn in Hnd. apply NoDup_cons in Hnd as [Hc Hnd].
  assert (Hno : forall x, In x l -> LLMProvider.name x <> LLMProvider.name c).
  { intros x Hx E. apply Hc. rewrite <- E. apply list_elem_of_In. now apply in_map. }
  intros [<- | Hp] [<- | Hq] E; auto.
  - exfalso. symmetry in E. now apply (Hno q).
  - exfalso. now apply (Hno p).
Qed.

Lemma getInstance_eq isConfigured :
  getInstance clock isConfigured =
  initializeLoop isConfigured providerConfigs (mkWorld [] ∅ (clock 0%nat) 1%nat []).
Proof. reflexivity. Qed.

Lemma getInstance_fresh isConfigured : fresh (getInstance clock isConfigured).
Proof.
  rewrite getInstance_eq.
  apply initializeLoop_fresh; [apply providerConfigs_limits|].
  split; [split|split].
  - constructor.
  - constructor.
  - intros nm. reflexivity.
  - intros p [].
Qed.

Lemma getInstance_enabled isConfigured q :
  enabled (getInstance clock isConfigured) q -> In q providerConfigs.
Proof.
  rewrite getInstance_eq. intros H.
  apply initializeLoop_enabled in H as [[] | H]. exact H.
Qed.

Lemma fresh_countsBounded w : fresh w -> wellFormed w /\ countsBounded w.
Proof.
  intros (Hwf & Hz & Hr). split; [exact Hwf|].
  intros p Hp. rewrite Hz. split; [lia | now apply Hr].
Qed.

Lemma fresh_countsSupported w : fresh w -> countsSupported w.
Proof. intros (_ & Hz & _) nm _. apply Hz. Qed.

(** In a world reached from construction, a configuration that is not
    enabled has the count 0. *)
Lemma reached_catalog_counts isConfigured ops p :
  In p providerConfigs ->
  enabled (runOps clock ops (getInstance clock isConfigured)) p \/
  countOf (runOps clock ops (getInstance clock isConfigured)) (LLMProvider.name p) = 0.
Proof.
  intros Hp.
  set (w := runOps clock ops (getInstance clock isConfigured)).
  assert (Hprov : providers w = providers (getInstance clock isConfigured))
    by apply runOps_providers.
  destruct (existsb (fun q => String.eqb (LLMProvider.name q) (LLMProvider.name p))
              (map snd (providers w))) eqn:E.
  - left. apply existsb_exists in E as (q & Hq & Hn). apply String.eqb_eq in Hn.
    assert (q = p); [|now subst q].
    apply providerConfigs_name_inj; [|exact Hp|exact Hn].
    apply (getInstance_enabled isConfigured). unfold enabled. now rewrite <- Hprov.
  - right.
    apply (runOps_countsSupported ops _
             (fresh_countsSupported _ (getInstance_fresh isConfigured))).
    intros q Hq Hn.
    assert (existsb (fun q => String.eqb (LLMProvider.name q) (LLMProvider.name p))
              (map snd (providers w)) = true); [|congruence].
    apply existsb_exists. exists q. split; [exact Hq|]. now apply String.eqb_eq.
Qed.

End Reachable.

(** ** Operations that run inside one window *)

Section OneWindow.

Variable clock : nat -> Z.

Lemma steps_trans d1 d2 w1 w2 w3 :
  steps d1 w1 w2 -> steps d2 w2 w3 -> steps (fun nm => d1 nm + d2 nm) w1 w3.
Proof.
  intros (Hp & Hl & Hc & Hn) (Hp' & Hl' & Hc' & Hn').
  repeat split; try congruence; [lia|].
  intros nm. rewrite Hn', Hn. lia.
Qed.

Lemma steps_ext d d' w w' :
  (forall nm, d nm = d' nm) -> steps d w w' -> steps d' w w'.
Proof.
  intros E (Hp & Hl & Hc & Hn). repeat split; auto.
  intros nm. rewrite Hn, E. reflexivity.
Qed.

Lemma steps_sameWindow d w w' :
  sameWindow clock w -> steps d w w' -> sameWindow clock w'.
Proof. intros H (_ & Hl & Hc & _) t Ht. rewrite Hl. apply H. lia. Qed.

Lemma later_steps w w' : later w w' -> steps noCharge w w'.
Proof.
  intros (Hp & Hc & Hl & _ & Hr). repeat split; auto.
  intros nm. unfold countOf, noCharge. rewrite Hc. lia.
Qed.

Lemma readClock_steps w : steps noCharge w (snd (readClock clock w)).
Proof.
  repeat split; cbn; [lia|]. intros nm. unfold countOf, noCharge; cbn. lia.
Qed.

Lemma recordRequest_steps p w : steps (chargeOf (Some p)) w (recordRequest p w).
Proof.
  repeat split; cbn; [lia|]. intros nm.
  rewrite countOf_recordRequest. unfold chargeOf.
  destruct (String.eqb _ _); lia.
Qed.

Lemma logged_steps w l :
  steps noCharge w
    (mkWorld (providers w) (requestCounts w) (lastReset w) (clockReads w) l).
Proof.
  repeat split; cbn; [lia|]. intros nm. unfold countOf, noCharge; cbn. lia.
Qed.

Lemma atOrAfter_later w w1 :
  sameWindow clock w -> atOrAfter clock w w1 -> later w w1.
Proof.
  intros H [-> | Hl]; [apply later_refl|].
  eapply later_trans; [apply advance_later, H | exact Hl].
Qed.

Lemma sameWindow_advance w :
  sameWindow clock w -> sameWindow clock (advance clock w).
Proof. intros H. apply (advance_sameWindow clock w H). Qed.

Lemma selectProvider_later request w :
  sameWindow clock w -> later w (snd (selectProvider clock request w)).
Proof.
  intros H. apply atOrAfter_later; [exact H|].
  apply selectProvider_settled. now apply sameWindow_advance.
Qed.

Lemma getFallbackProvider_later current w :
  sameWindow clock w -> later w (snd (getFallbackProvider clock current w)).
Proof. intros H. unfold getFallbackProvider. now apply firstWithinLimit_sameWindow. Qed.

(** In one window, [generate] raises the count of the provider it selected
    by one and leaves every other count as it was, whether or not it fell
    back. *)
Lemma generate_steps getCredential request w :
  sameWindow clock w ->
  steps (chargeOf (fst (selectProvider clock request w))) w
        (snd (generate clock getCredential request w)).
Proof.
  intros H.
  pose proof (generate_snd clock getCredential request w) as G. cbn zeta in G.
  pose proof (selectProvider_later request w H) as Hl.
  destruct (selectProvider clock request w) as [[p|] w1]; cbn [fst snd] in *;
    [|rewrite G; now apply later_steps].
  assert (S3 : steps (chargeOf (Some p)) w (charged clock p w1)).
  { eapply steps_ext; [|eapply steps_trans; [apply later_steps, Hl|
      eapply steps_trans; [apply readClock_steps | apply recordRequest_steps]]].
    intros nm. unfold noCharge. cbn. lia. }
  rewrite callProvider_snd in G.
  set (w4 := mkWorld _ _ _ _ _) in G.
  assert (S4 : steps (chargeOf (Some p)) w w4).
  { eapply steps_ext; [|eapply steps_trans; [exact S3 | apply logged_steps]].
    intros nm. unfold noCharge. lia. }
  destruct (getCredential (LLMProvider.name p)).
  { rewrite G. eapply steps_ext; [|eapply steps_trans; [exact S4 | apply readClock_steps]].
    intros nm. unfold noCharge. lia. }
  pose proof (getFallbackProvider_later p w4 (steps_sameWindow _ _ _ H S4)) as Hl5.
  destruct (getFallbackProvider clock p w4) as [[f|] w5]; cbn [snd] in Hl5.
  - assert (S5 : steps (chargeOf (Some p)) w w5).
    { eapply steps_ext; [|eapply steps_trans; [exact S4 | apply later_steps, Hl5]].
      intros nm. unfold noCharge. lia. }
    rewrite callProvider_snd in G.
    set (w6 := mkWorld _ _ _ _ _) in G.
    assert (S6 : steps (chargeOf (Some p)) w w6).
    { eapply steps_ext; [|eapply steps_trans; [exact S5 | apply logged_steps]].
      intros nm. unfold noCharge. lia. }
    destruct (getCredential (LLMProvider.name f)); rewrite G; [|exact S6].
    eapply steps_ext; [|eapply steps_trans; [exact S6 | apply readClock_steps]].
    intros nm. unfold noCharge. lia.
  - rewrite G.
    eapply steps_ext; [|eapply steps_trans; [exact S4 | apply later_steps, Hl5]].
    intros nm. unfold noCharge. lia.
Qed.

(** A provider whose count has reached its limit keeps that count through
    every operation of the window. *)
Lemma runOp_saturated op w p :
  wellFormed w -> enabled w p -> sameWindow clock w ->
  LLMProvider.rateLimit p <= countOf w (LLMProvider.name p) ->
  let w' := runOp clock op w in
  sameWindow clock w' /\
  countOf w' (LLMProvider.name p) = countOf w (LLMProvider.name p).
Proof.
  intros Hwf Hen H Hsat. destruct op as [request | request getCredential]; cbn.
  - pose proof (selectProvider_later request w H) as Hl.
    split; [eapply later_sameWindow; eauto | now apply later_countOf].
  - pose proof (generate_steps getCredential request w H) as S.
    split; [eapply steps_sameWindow; eauto|].
    destruct S as (_ & _ & _ & Hn). rewrite Hn.
    pose proof (selectProvider_Some clock request w) as Hs.
    pose proof (selectProvider_later request w H) as Hl.
    destruct (selectProvider clock request w) as [[q|] w1]; cbn; [|lia].
    destruct (Hs q w1 eq_refl) as (Hq & Hw). cbn [snd] in Hl.
    destruct (String.eqb _ _) eqn:E; [|lia].
    apply String.eqb_eq in E.
    assert (p = q) by (eapply wellFormed_name_inj; eauto). subst q.
    rewrite (later_within _ _ _ Hl) in Hw. unfold within in Hw.
    apply Z.ltb_lt in Hw. lia.
Qed.

Lemma runOps_saturated ops : forall w p,
  wellFormed w -> enabled w p -> sameWindow clock w ->
  LLMProvider.rateLimit p <= countOf w (LLMProvider.name p) ->
  let w' := runOps clock ops w in
  sameWindow clock w' /\
  countOf w' (LLMProvider.name p) = countOf w (LLMProvider.name p).
Proof.
  induction ops as [|op ops IH]; intros w p Hwf Hen H Hsat; [split; auto|].
  cbn. destruct (runOp_saturated op w p Hwf Hen H Hsat) as (H' & Hc).
  assert (Hwf' : wellFormed (runOp clock op w)).
  { apply (wellFormed_providers w); [apply runOp_providers | exact Hwf]. }
  assert (Hen' : enabled (runOp clock op w) p).
  { unfold enabled. now rewrite runOp_providers. }
  destruct (IH (runOp clock op w) p Hwf' Hen' H') as (H'' & Hc'); [lia|].
  split; [exact H''|]. unfold runOps in Hc'. rewrite Hc'. exact Hc.
Qed.

End OneWindow.

(** ** The counters (C6) *)

(** C6. In every world reached from construction by the public operations,
    whatever the configured credentials, the clock and the outcomes of the
    provider calls, the count of every enabled provider, and of every
    provider of the catalog, lies between 0 and its rate limit; and once a
    provider's count equals its limit, every admission check of that
    provider made while the window lasts returns false, whatever operations
    run in between. *)
Theorem C6_count_bounded_admission_monotonic :
  forall (clock : nat -> Z) (isConfigured : string -> bool) (ops : list Op),
    (forall p, enabled (runOps clock ops (getInstance clock isConfigured)) p ->
       0 <= countOf (runOps clock ops (getInstance clock isConfigured)) (LLMProvider.name p)
         <= LLMProvider.rateLimit p) /\
    (forall p, In p providerConfigs ->
       0 <= countOf (runOps clock ops (getInstance clock isConfigured)) (LLMProvider.name p)
         <= LLMProvider.rateLimit p) /\
    (forall p ops',
       enabled (runOps clock ops (getInstance clock isConfigured)) p ->
       countOf (runOps clock ops (getInstance clock isConfigured)) (LLMProvider.name p)
         = LLMProvider.rateLimit p ->
       sameWindow clock (runOps clock ops (getInstance clock isConfigured)) ->
       fst (isWithinRateLimit clock p
              (runOps clock ops' (runOps clock ops (getInstance clock isConfigured))))
         = false).
Proof.
  intros clock isConfigured ops.
  destruct (runOps_invariant clock ops (getInstance clock isConfigured)
              (fresh_countsBounded _ (getInstance_fresh clock isConfigured)))
    as [Hwf Hb].
  split; [exact Hb|]. split.
  { intros p Hp.
    destruct (reached_catalog_counts clock isConfigured ops p Hp) as [Hen | ->];
      [now apply Hb|].
    pose proof providerConfigs_limits as Hl. rewrite Forall_forall in Hl.
    split; [lia|]. apply Hl. now apply list_elem_of_In. }
  intros p ops' Hen Hfull Hwin.
  destruct (runOps_saturated clock ops' _ p Hwf Hen Hwin) as [Hwin' Hc]; [lia|].
  rewrite isWithinRateLimit_advance. cbn [fst].
  unfold within.
  destruct (advance_sameWindow clock _ Hwin') as (Hcounts & _).
  unfold countOf in *. rewrite Hcounts, Hc, Hfull.
  apply Z.ltb_irrefl.
Qed.

(** Perplexity (limit 20) after twenty requests that prefer it: a further
    request and a selection later, it is still refused. *)
Lemma C6_witness :
  countOf (runOps clockAtZero (repeat (OpGenerate (preferring "Perplexity") allOk) 20)
             (getInstance clockAtZero perplexityOnly)) "Perplexity" = 20 /\
  fst (isWithinRateLimit clockAtZero (providerNamed "Perplexity")
         (runOps clockAtZero
            [OpGenerate (preferring "Perplexity") allOk; OpSelectProvider plainRequest]
            (runOps clockAtZero (repeat (OpGenerate (preferring "Perplexity") allOk) 20)
               (getInstance clockAtZero perplexityOnly)))) = false.
Proof.
  split; [vm_compute; reflexivity|].
  apply (proj2 (proj2 (C6_count_bounded_admission_monotonic clockAtZero perplexityOnly
                         (repeat (OpGenerate (preferring "Perplexity") allOk) 20)))).
  - vm_compute. right. left. reflexivity.
  - vm_compute. reflexivity.
  - intros t _. vm_compute. discriminate.
Defined.

(** ** Default selection and the listing (C7) *)

Lemma selectProvider_default clock request w :
  truthyString (LLMRequest.preferredProvider request) = None ->
  nonEmptyList (LLMRequest.requiredCapabilities request) = None ->
  selectProvider clock request w
    = firstWithinLimit clock (fun _ => true) (getAvailableProviders w) w.
Proof.
  intros Hp Hc. unfold selectProvider.
  destruct (getAvailableProviders w) as [|p l] eqn:E; [reflexivity|].
  cbn [length Nat.eqb].
  rewrite selectPreferred_eq, Hp. unfold selectCapable. rewrite Hc. reflexivity.
Qed.

(** C7. For a request with no preferred provider and no required
    capabilities, when at least one provider is enabled and every enabled
    provider passes its rate check, the selection returns an enabled provider
    whose priority value is the lowest. The listing of the enabled providers
    is sorted by ascending priority, is a rearrangement of the enabled
    providers, and depends on nothing but the enabled providers. *)
Theorem C7_default_selects_lowest_priority :
  forall (clock : nat -> Z) (request : LLMRequest.t) (w : World),
    truthyString (LLMRequest.preferredProvider request) = None ->
    nonEmptyList (LLMRequest.requiredCapabilities request) = None ->
    providers w <> [] ->
    (forall p, enabled w p -> fst (isWithinRateLimit clock p w) = true) ->
    (exists p,
       fst (selectProvider clock request w) = Some p /\
       head (getAvailableProviders w) = Some p /\
       enabled w p /\
       forall q, enabled w q -> LLMProvider.priority p <= LLMProvider.priority q) /\
    StronglySorted byPriority (getAvailableProviders w) /\
    Permutation (getAvailableProviders w) (map snd (providers w)) /\
    (forall w', providers w' = providers w ->
       getAvailableProviders w' = getAvailableProviders w).
Proof.
  intros clock request w Hp Hc Hne Hall.
  pose proof (sortByPriority_sorted (map snd (providers w))) as Hs.
  fold (getAvailableProviders w) in Hs.
  split; [|split; [exact Hs|split]].
  - rewrite (selectProvider_default clock request w Hp Hc).
    pose proof (getAvailableProviders_length w) as Hlen.
    pose proof (getAvailableProviders_In w) as Hin.
    destruct (getAvailableProviders w) as [|p l].
    { destruct (providers w); [congruence | discriminate]. }
    exists p. rewrite firstWithinLimit_cons.
    assert (Hen : enabled w p) by (apply Hin; now left).
    pose proof (Hall p Hen) as Hw. rewrite isWithinRateLimit_advance in Hw.
    cbn [fst] in Hw. rewrite Hw.
    repeat split; [exact Hen|].
    intros q Hq. apply Hin in Hq as [<- | Hq]; [lia|].
    apply StronglySorted_inv in Hs as [_ Hs].
    rewrite Forall_forall in Hs. apply Hs. now apply list_elem_of_In.
  - apply sortByPriority_perm.
  - intros w' E. unfold getAvailableProviders. now rewrite E.
Qed.

(** Claude, OpenAI and Ollama enabled, nothing counted yet. *)
Lemma C7_witness :
  exists p,
    fst (selectProvider clockAtZero plainRequest
           (getInstance clockAtZero claudeAndOpenAI)) = Some p /\
    LLMProvider.name p = "Claude" /\
    forall q, enabled (getInstance clockAtZero claudeAndOpenAI) q ->
      LLMProvider.priority p <= LLMProvider.priority q.
Proof.
  destruct (C7_default_selects_lowest_priority clockAtZero plainRequest
              (getInstance clockAtZero claudeAndOpenAI))
    as ((p & Hsel & Hhd & _ & Hmin) & _).
  - reflexivity.
  - reflexivity.
  - vm_compute. discriminate.
  - intros p Hp. vm_compute in Hp.
    destruct Hp as [<- | [<- | [<- | []]]]; vm_compute; reflexivity.
  - exists p. split; [exact Hsel|]. split; [|exact Hmin].
    vm_compute in Hhd. now injection Hhd as <-.
Defined.

(** ** The preferred provider (C10) *)

(** C10. When a request names a preferred provider and a non-empty list of
    required capabilities, and the preferred provider is enabled and passes
    its rate check, the selection returns it; its capabilities are not
    looked at. *)
Theorem C10_preferred_skips_capability_check :
  forall (clock : nat -> Z) (request : LLMRequest.t) (w : World)
         (nm : string) (required : list string) (preferred : LLMProvider.t),
    LLMRequest.preferredProvider request = Some nm ->
    nm <> "" ->
    LLMRequest.requiredCapabilities request = Some required ->
    required <> [] ->
    mapGet nm (providers w) = Some preferred ->
    fst (isWithinRateLimit clock preferred w) = true ->
    selectProvider clock request w
      = (Some preferred, snd (isWithinRateLimit clock preferred w)).
Proof.
  intros clock request w nm required preferred Hp Hnm _ _ Hget Hw.
  unfold selectProvider.
  pose proof (getAvailableProviders_length w) as Hlen.
  destruct (getAvailableProviders w) as [|p l].
  { destruct (providers w); [discriminate Hget | discriminate Hlen]. }
  cbn [length Nat.eqb].
  rewrite selectPreferred_eq, Hp. cbn [truthyString].
  destruct (String.eqb nm "") eqn:E; [apply String.eqb_eq in E; contradiction|].
  rewrite Hget.
  rewrite isWithinRateLimit_advance in Hw |- *. cbn [fst snd] in Hw |- *.
  now rewrite Hw.
Qed.

(** Ollama is preferred and "vision" is required, which Ollama lacks. *)
Lemma C10_witness :
  hasAllCapabilities ["vision"] (providerNamed "Ollama") = false /\
  fst (selectProvider clockAtZero (preferringAndRequiring "Ollama" ["vision"])
         (getInstance clockAtZero everyProvider)) = Some (providerNamed "Ollama").
Proof.
  split; [reflexivity|].
  rewrite (C10_preferred_skips_capability_check clockAtZero
             (preferringAndRequiring "Ollama" ["vision"])
             (getInstance clockAtZero everyProvider)
             "Ollama" ["vision"] (providerNamed "Ollama")).
  - reflexivity.
  - reflexivity.
  - discriminate.
  - reflexivity.
  - discriminate.
  - vm_compute. reflexivity.
  - vm_compute. reflexivity.
Defined.

(** ** The fallback (C8) *)

Section Fallback.

Variable clock : nat -> Z.

Lemma getAvailableProviders_names w :
  wellFormed w -> NoDup (map LLMProvider.name (getAvailableProviders w)).
Proof.
  intros [Hnd Hk].
  assert (Hperm : Permutation (map LLMProvider.name (getAvailableProviders w))
                              (map LLMProvider.name (map snd (providers w))))
    by apply Permutation_map, sortByPriority_perm.
  rewrite Hperm.
  replace (map LLMProvider.name (map snd (providers w))) with (map fst (providers w));
    [exact Hnd|].
  clear Hnd Hperm. induction Hk as [|[k p] m Hkp _ IH]; [reflexivity|].
  cbn in *. rewrite <- IH, Hkp. reflexivity.
Qed.

Lemma findIndexFrom_last nm l p : forall i,
  Forall (fun q => LLMProvider.name q <> nm) l ->
  LLMProvider.name p = nm ->
  findIndexFrom nm (l ++ [p]) i = i + Z.of_nat (length l).
Proof.
  induction l as [|q l IH]; intros i Hl Hp; cbn [app findIndexFrom length].
  - rewrite Hp, String.eqb_refl. cbn. lia.
  - apply Forall_cons in Hl as [Hq Hl].
    apply String.eqb_neq in Hq. rewrite Hq.
    rewrite IH by assumption. lia.
Qed.

(** The last provider of the listing has no fallback. *)
Lemma getFallbackProvider_last w0 w p :
  providers w = providers w0 -> wellFormed w0 ->
  last (getAvailableProviders w0) = Some p ->
  getFallbackProvider clock p w = (None, w).
Proof.
  intros Hp Hwf Hlast. unfold getFallbackProvider.
  replace (getAvailableProviders w) with (getAvailableProviders w0)
    by (unfold getAvailableProviders; now rewrite Hp).
  pose proof (getAvailableProviders_names w0 Hwf) as Hnd.
  apply last_Some in Hlast as [l Hl]. rewrite Hl in Hnd |- *.
  unfold findIndex. rewrite findIndexFrom_last; [| |reflexivity].
  - replace (Z.to_nat (0 + Z.of_nat (length l) + 1)) with (length (l ++ [p]))
      by (rewrite length_app; cbn; lia).
    now rewrite drop_all.
  - rewrite map_app in Hnd. cbn in Hnd.
    apply NoDup_app in Hnd as (_ & Hdis & _).
    apply Forall_forall. intros q Hq Heq.
    apply (Hdis (LLMProvider.name q)).
    + apply list_elem_of_In, in_map, list_elem_of_In, Hq.
    + rewrite Heq. apply list_elem_of_singleton. reflexivity.
Qed.

Lemma getFallbackProvider_index current w f w' :
  getFallbackProvider clock current w = (Some f, w') ->
  exists j : nat,
    getAvailableProviders w !! j = Some f /\
    findIndex (LLMProvider.name current) (getAvailableProviders w) < Z.of_nat j.
Proof.
  unfold getFallbackProvider. intros H.
  apply firstWithinLimit_Some in H as (Hin & _ & _).
  apply list_elem_of_In, list_elem_of_lookup in Hin as [i Hi].
  rewrite lookup_drop in Hi.
  eexists. split; [exact Hi|]. lia.
Qed.

End Fallback.

(** C8. A fallback that [getFallbackProvider] returns stands strictly after
    the position of the failed provider in the listing by priority. So when
    the provider that [generate] selected is the last of that listing and
    its call fails, [generate] throws that failure again and has called no
    other provider, whatever providers stand before it. (The world is well
    formed, as every world reached from construction is: the keys of the map
    of providers are their names.) *)
Theorem C8_fallback_strictly_later :
  forall (clock : nat -> Z),
    (forall (current f : LLMProvider.t) (w w' : World),
       getFallbackProvider clock current w = (Some f, w') ->
       exists j : nat,
         getAvailableProviders w !! j = Some f /\
         findIndex (LLMProvider.name current) (getAvailableProviders w) < Z.of_nat j) /\
    (forall (getCredential : string -> Result string) (request : LLMRequest.t)
            (w w1 : World) (current : LLMProvider.t) (e : Exn),
       wellFormed w ->
       selectProvider clock request w = (Some current, w1) ->
       last (getAvailableProviders w) = Some current ->
       getCredential (LLMProvider.name current) = Throw e ->
       fst (generate clock getCredential request w) = Throw e /\
       invoked (snd (generate clock getCredential request w))
         = (invoked w ++ [LLMProvider.name current])%list).
Proof.
  intros clock. split.
  - intros current f w w'. apply getFallbackProvider_index.
  - intros getCredential request w w1 current e Hwf Hsel Hlast Hfail.
    pose proof (selectProvider_rolled clock request w) as (Hp & Hi & _).
    rewrite generate_eq, Hsel in *. cbn [snd] in Hp, Hi. cbn zeta.
    rewrite (callProvider_eq getCredential), callProvider_fst, callProvider_snd, Hfail.
    rewrite (getFallbackProvider_last clock w _ current); [|exact Hp|exact Hwf|exact Hlast].
    cbn. now rewrite Hi.
Qed.

(** Every provider enabled; TogetherAI, the last by priority, is preferred
    and fails: nothing else is called, though Claude stands first. *)
Lemma C8_witness :
  head (getAvailableProviders (getInstance clockAtZero everyProvider))
    = Some (providerNamed "Claude") /\
  fst (generate clockAtZero (failOnly "TogetherAI") (preferring "TogetherAI")
         (getInstance clockAtZero everyProvider))
    = Throw (Error "no credential for TogetherAI") /\
  invoked (snd (generate clockAtZero (failOnly "TogetherAI") (preferring "TogetherAI")
                  (getInstance clockAtZero everyProvider)))
    = ["TogetherAI"].
Proof.
  split; [vm_compute; reflexivity|].
  apply (proj2 (C8_fallback_strictly_later clockAtZero)
           (failOnly "TogetherAI") (preferring "TogetherAI")
           (getInstance clockAtZero everyProvider)
           (snd (selectProvider clockAtZero (preferring "TogetherAI")
                   (getInstance clockAtZero everyProvider)))
           (providerNamed "TogetherAI")).
  - apply getInstance_fresh.
  - vm_compute. reflexivity.
  - vm_compute. reflexivity.
  - reflexivity.
Defined.

(** ** The window is shared (C5) *)

(** Three requests served by Ollama at time 0, then a rate check of Claude
    100000 ms later: Ollama's count falls from 3 to 0. With the check made
    exactly 60000 ms later, the window is not reset. *)
Lemma C5_counterexample :
  countOf (runOps (clockJump 10 100000)
             (repeat (OpGenerate (preferring "Ollama") allOk) 3)
             (getInstance (clockJump 10 100000) claudeOnly)) "Ollama" = 3 /\
  countOf (snd (isWithinRateLimit (clockJump 10 100000) (providerNamed "Claude")
                  (runOps (clockJump 10 100000)
                     (repeat (OpGenerate (preferring "Ollama") allOk) 3)
                     (getInstance (clockJump 10 100000) claudeOnly)))) "Ollama" = 0 /\
  countOf (snd (isWithinRateLimit (clockJump 10 60000) (providerNamed "Ollama")
                  (runOps (clockJump 10 60000)
                     (repeat (OpGenerate (preferring "Ollama") allOk) 3)
                     (getInstance (clockJump 10 60000) claudeOnly)))) "Ollama" = 3.
Proof. vm_compute. repeat split. Qed.

(** C5, amended. The window is one for all providers: there is a single
    window start. A rate check of any provider made more than 60000 ms after
    it sets the count of every provider to zero and moves the window start
    to the time of the check; a check made at most 60000 ms after it changes
    no count and not the window start. The answer of the check compares the
    checked provider's count, after that, with its limit. *)
Theorem C5_window_is_global :
  forall (clock : nat -> Z) (p : LLMProvider.t) (w : World),
    (60000 < clock (clockReads w) - lastReset w ->
       (forall nm, countOf (snd (isWithinRateLimit clock p w)) nm = 0) /\
       lastReset (snd (isWithinRateLimit clock p w)) = clock (clockReads w)) /\
    (clock (clockReads w) - lastReset w <= 60000 ->
       requestCounts (snd (isWithinRateLimit clock p w)) = requestCounts w /\
       lastReset (snd (isWithinRateLimit clock p w)) = lastReset w) /\
    fst (isWithinRateLimit clock p w)
      = (countOf (snd (isWithinRateLimit clock p w)) (LLMProvider.name p)
         <? LLMProvider.rateLimit p).
Proof.
  intros clock p w. rewrite isWithinRateLimit_advance. cbn [fst snd].
  destruct (advance_cases clock w) as [(Hlt & Hc & Hl) | (Hle & Hc & Hl)].
  - split; [|split; [lia | reflexivity]].
    intros _. split; [|exact Hl].
    intros nm. eapply countOf_zeroed; eauto.
  - split; [lia|]. split; [auto | reflexivity].
Qed.

Lemma C5_witness :
  countOf (snd (isWithinRateLimit (clockJump 10 100000) (providerNamed "Claude")
                  (runOps (clockJump 10 100000)
                     (repeat (OpGenerate (preferring "Ollama") allOk) 3)
                     (getInstance (clockJump 10 100000) claudeOnly)))) "Ollama" = 0 /\
  requestCounts (snd (isWithinRateLimit (clockJump 10 60000) (providerNamed "Claude")
                        (runOps (clockJump 10 60000)
                           (repeat (OpGenerate (preferring "Ollama") allOk) 3)
                           (getInstance (clockJump 10 60000) claudeOnly))))
  = requestCounts (runOps (clockJump 10 60000)
                     (repeat (OpGenerate (preferring "Ollama") allOk) 3)
                     (getInstance (clockJump 10 60000) claudeOnly)).
Proof.
  split.
  - apply (proj1 (C5_window_is_global (clockJump 10 100000) (providerNamed "Claude")
                   (runOps (clockJump 10 100000)
                      (repeat (OpGenerate (preferring "Ollama") allOk) 3)
                      (getInstance (clockJump 10 100000) claudeOnly)))).
    vm_compute. reflexivity.
  - apply (proj1 (proj2 (C5_window_is_global (clockJump 10 60000) (providerNamed "Claude")
                   (runOps (clockJump 10 60000)
                      (repeat (OpGenerate (preferring "Ollama") allOk) 3)
                      (getInstance (clockJump 10 60000) claudeOnly))))).
    vm_compute. discriminate.
Defined.

(** ** Where the request is counted (C4, C9) *)

Section Charging.

Variable clock : nat -> Z.
Variable getCredential : string -> Result string.

Lemma countOf_charged p w1 nm :
  countOf (charged clock p w1) nm = countOf w1 nm + chargeOf (Some p) nm.
Proof.
  unfold charged. rewrite countOf_recordRequest. unfold chargeOf.
  destruct (String.eqb _ _); unfold countOf; cbn; lia.
Qed.

(** After [generate] has selected [p], the counts are those of the world in
    which [p] was charged, or all zero when the search of a fallback began a
    new window. *)
Lemma generate_counts request w p w1 :
  selectProvider clock request w = (Some p, w1) ->
  let w' := snd (generate clock getCredential request w) in
  (isThrow (getCredential (LLMProvider.name p)) = false ->
   requestCounts w' = requestCounts (charged clock p w1)) /\
  (requestCounts w' = requestCounts (charged clock p w1) \/
   requestCounts w' = (fun _ : Z => 0) <$> requestCounts (charged clock p w1)).
Proof.
  intros Hsel. cbn zeta.
  pose proof (generate_snd clock getCredential request w) as G. cbn zeta in G.
  rewrite Hsel in G. rewrite callProvider_snd in G.
  set (w4 := mkWorld _ _ _ _ _) in G.
  destruct (getCredential (LLMProvider.name p)) eqn:Hp; cbn [isThrow].
  { rewrite G. split; [reflexivity | left; reflexivity]. }
  split; [discriminate|].
  pose proof (getFallbackProvider_rolled clock p w4) as (_ & _ & Hr).
  destruct (getFallbackProvider clock p w4) as [[f|] w5]; cbn [snd] in Hr.
  - rewrite callProvider_snd in G.
    destruct (getCredential (LLMProvider.name f)); rewrite G; exact Hr.
  - rewrite G. exact Hr.
Qed.

End Charging.

(** In a new instance the selection returns Claude and Claude's count is
    still 0 afterwards. *)
Lemma C4_counterexample :
  fst (selectProvider clockAtZero plainRequest (getInstance clockAtZero claudeOnly))
    = Some (providerNamed "Claude") /\
  countOf (getInstance clockAtZero claudeOnly) "Claude" = 0 /\
  countOf (snd (selectProvider clockAtZero plainRequest
                  (getInstance clockAtZero claudeOnly))) "Claude" = 0.
Proof. vm_compute. repeat split. Qed.

(** C4, amended. The selection consumes no admission slot: it leaves every
    count as it was, or sets all of them to zero when a rate check finds the
    window expired. The slot is consumed by a separate step of [generate],
    [recordRequest], which raises the count of the selected provider by one
    and no other count. So after [generate] each count is the one the
    selection left, plus one for the selected provider, or it is zero (by a
    reset during the search of a fallback); when the call of the selected
    provider succeeds it is the former. *)
Theorem C4_selection_does_not_consume_slot :
  forall (clock : nat -> Z) (request : LLMRequest.t) (w w1 : World) (p : LLMProvider.t),
    selectProvider clock request w = (Some p, w1) ->
    (requestCounts w1 = requestCounts w \/
     requestCounts w1 = (fun _ : Z => 0) <$> requestCounts w) /\
    (forall nm,
       countOf (recordRequest p w1) nm = countOf w1 nm + chargeOf (Some p) nm) /\
    (forall getCredential nm,
       countOf (snd (generate clock getCredential request w)) nm
         = countOf w1 nm + chargeOf (Some p) nm \/
       countOf (snd (generate clock getCredential request w)) nm = 0) /\
    (forall getCredential nm,
       isThrow (getCredential (LLMProvider.name p)) = false ->
       countOf (snd (generate clock getCredential request w)) nm
         = countOf w1 nm + chargeOf (Some p) nm).
Proof.
  intros clock request w w1 p Hsel.
  pose proof (selectProvider_rolled clock request w) as (_ & _ & Hr).
  rewrite Hsel in Hr. cbn [snd] in Hr.
  split; [exact Hr|]. split; [|split].
  - intros nm. rewrite countOf_recordRequest. unfold chargeOf.
    destruct (String.eqb _ _); lia.
  - intros getCredential nm.
    destruct (generate_counts clock getCredential request w p w1 Hsel) as (_ & [H|H]).
    + left. rewrite <- (countOf_charged clock p w1 nm). unfold countOf. now rewrite H.
    + right. eapply countOf_zeroed; eauto.
  - intros getCredential nm Hok.
    destruct (generate_counts clock getCredential request w p w1 Hsel) as (H & _).
    rewrite <- (countOf_charged clock p w1 nm). unfold countOf. now rewrite (H Hok).
Qed.

(** A new instance with Claude and Ollama, and a call that Claude answers:
    Claude's count is the one the selection left plus one, Ollama's is the
    one the selection left. *)
Lemma C4_witness :
  countOf (snd (generate clockAtZero allOk plainRequest
                  (getInstance clockAtZero claudeOnly))) "Claude"
  = countOf (snd (selectProvider clockAtZero plainRequest
                    (getInstance clockAtZero claudeOnly))) "Claude" + 1 /\
  countOf (snd (generate clockAtZero allOk plainRequest
                  (getInstance clockAtZero claudeOnly))) "Ollama"
  = countOf (snd (selectProvider clockAtZero plainRequest
                    (getInstance clockAtZero claudeOnly))) "Ollama" + 0.
Proof.
  destruct (C4_selection_does_not_consume_slot clockAtZero plainRequest
              (getInstance clockAtZero claudeOnly)
              (snd (selectProvider clockAtZero plainRequest
                      (getInstance clockAtZero claudeOnly)))
              (providerNamed "Claude"))
    as (_ & _ & _ & Hok).
  - vm_compute. reflexivity.
  - split; [exact (Hok allOk "Claude" eq_refl) | exact (Hok allOk "Ollama" eq_refl)].
Defined.

(** Five requests served by Claude and three by Ollama at time 0; 100000 ms
    later Claude fails and [generate] falls back to Ollama. Claude's count
    goes from 5 to 1 and Ollama's from 3 to 0. *)
Lemma C9_counterexample :
  countOf (runOps (clockJump 25 100000)
             (repeat (OpGenerate (preferring "Claude") allOk) 5
              ++ repeat (OpGenerate (preferring "Ollama") allOk) 3)
             (getInstance (clockJump 25 100000) claudeOnly)) "Claude" = 5 /\
  countOf (runOps (clockJump 25 100000)
             (repeat (OpGenerate (preferring "Claude") allOk) 5
              ++ repeat (OpGenerate (preferring "Ollama") allOk) 3)
             (getInstance (clockJump 25 100000) claudeOnly)) "Ollama" = 3 /\
  drop 8 (invoked (snd (generate (clockJump 25 100000) (failOnly "Claude") plainRequest
             (runOps (clockJump 25 100000)
                (repeat (OpGenerate (preferring "Claude") allOk) 5
                 ++ repeat (OpGenerate (preferring "Ollama") allOk) 3)
                (getInstance (clockJump 25 100000) claudeOnly)))))
    = ["Claude"; "Ollama"] /\
  countOf (snd (generate (clockJump 25 100000) (failOnly "Claude") plainRequest
             (runOps (clockJump 25 100000)
                (repeat (OpGenerate (preferring "Claude") allOk) 5
                 ++ repeat (OpGenerate (preferring "Ollama") allOk) 3)
                (getInstance (clockJump 25 100000) claudeOnly)))) "Claude" = 1 /\
  countOf (snd (generate (clockJump 25 100000) (failOnly "Claude") plainRequest
             (runOps (clockJump 25 100000)
                (repeat (OpGenerate (preferring "Claude") allOk) 5
                 ++ repeat (OpGenerate (preferring "Ollama") allOk) 3)
                (getInstance (clockJump 25 100000) claudeOnly)))) "Ollama" = 0.
Proof. vm_compute. repeat split. Qed.

(** C9, amended. When [generate] falls back, [recordRequest] has run once,
    for the provider selected first; the fallback is called without any
    increment, and the counts at return are those that the search of the
    fallback left. The two providers called are the selected one and the
    fallback. If the whole call stays in the window of the world it starts
    from, the selected provider's count has grown by one and every other
    count, the fallback's too, is as before. If a rate check of the call
    reset the window, each count is zero, or is what the selection left plus
    one for the selected provider. *)
Theorem C9_fallback_is_not_charged :
  forall (clock : nat -> Z) (getCredential : string -> Result string)
         (request : LLMRequest.t) (w w1 w5 : World) (p f : LLMProvider.t) (e : Exn),
    selectProvider clock request w = (Some p, w1) ->
    getCredential (LLMProvider.name p) = Throw e ->
    getFallbackProvider clock p
      (snd (callProvider getCredential p request (charged clock p w1))) = (Some f, w5) ->
    invoked (snd (generate clock getCredential request w))
      = (invoked w ++ [LLMProvider.name p; LLMProvider.name f])%list /\
    requestCounts (snd (generate clock getCredential request w)) = requestCounts w5 /\
    (forall nm,
       countOf (snd (generate clock getCredential request w)) nm
         = countOf w1 nm + chargeOf (Some p) nm \/
       countOf (snd (generate clock getCredential request w)) nm = 0) /\
    (sameWindow clock w ->
     forall nm,
       countOf (snd (generate clock getCredential request w)) nm
         = countOf w nm + chargeOf (Some p) nm).
Proof.
  intros clock getCredential request w w1 w5 p f e Hsel Hfail Hfb.
  pose proof (generate_snd clock getCredential request w) as G. cbn zeta in G.
  rewrite Hsel, Hfail, Hfb in G.
  pose proof (selectProvider_rolled clock request w) as (_ & Hi & _).
  rewrite Hsel in Hi. cbn [snd] in Hi.
  pose proof (getFallbackProvider_rolled clock p
                (snd (callProvider getCredential p request (charged clock p w1))))
    as (_ & Hi5 & _).
  rewrite Hfb in Hi5. cbn [snd] in Hi5.
  rewrite callProvider_snd in Hi5, G. cbn in Hi5.
  split; [|split; [|split]].
  - destruct (getCredential (LLMProvider.name f)); rewrite G; cbn;
      rewrite Hi5, Hi, <- app_assoc; reflexivity.
  - destruct (getCredential (LLMProvider.name f)); rewrite G; reflexivity.
  - intros nm.
    destruct (generate_counts clock getCredential request w p w1 Hsel) as (_ & [H|H]).
    + left. rewrite <- (countOf_charged clock p w1 nm). unfold countOf. now rewrite H.
    + right. eapply countOf_zeroed; eauto.
  - intros Hwin nm.
    pose proof (generate_steps clock getCredential request w Hwin) as (_ & _ & _ & Hn).
    rewrite Hsel in Hn. apply Hn.
Qed.

(** Claude fails in the first window of a new instance and Ollama answers:
    Claude is charged, Ollama is not. *)
Lemma C9_witness :
  invoked (snd (generate clockAtZero (failOnly "Claude") plainRequest
                  (getInstance clockAtZero claudeOnly))) = ["Claude"; "Ollama"] /\
  countOf (snd (generate clockAtZero (failOnly "Claude") plainRequest
                  (getInstance clockAtZero claudeOnly))) "Claude"
    = countOf (getInstance clockAtZero claudeOnly) "Claude" + 1 /\
  countOf (snd (generate clockAtZero (failOnly "Claude") plainRequest
                  (getInstance clockAtZero claudeOnly))) "Ollama"
    = countOf (getInstance clockAtZero claudeOnly) "Ollama" + 0.
Proof.
  destruct (C9_fallback_is_not_charged clockAtZero (failOnly "Claude") plainRequest
              (getInstance clockAtZero claudeOnly)
              (snd (selectProvider clockAtZero plainRequest
                      (getInstance clockAtZero claudeOnly)))
              (snd (getFallbackProvider clockAtZero (providerNamed "Claude")
                      (snd (callProvider (failOnly "Claude") (providerNamed "Claude")
                              plainRequest
                              (charged clockAtZero (providerNamed "Claude")
                                 (snd (selectProvider clockAtZero plainRequest
                                         (getInstance clockAtZero claudeOnly))))))))
              (providerNamed "Claude") (providerNamed "Ollama")
              (Error "no credential for Claude"))
    as (Hinv & _ & _ & Hsame).
  - vm_compute. reflexivity.
  - reflexivity.
  - vm_compute. reflexivity.
  - split; [exact Hinv|].
    assert (Hwin : sameWindow clockAtZero (getInstance clockAtZero claudeOnly))
      by (intros t _; vm_compute; discriminate).
    split; [exact (Hsame Hwin "Claude") | exact (Hsame Hwin "Ollama")].
Defined.

(** ** What [generate] returns and throws (C3, C1) *)

(** With Ollama alone enabled and failing, [generate] throws Ollama's
    failure; with Ollama alone enabled and its 1000 requests of the window
    used, [generate] throws "No LLM provider available". *)
Lemma C3_counterexample :
  fst (generate clockAtZero allFail plainRequest (getInstance clockAtZero onlyOllama))
    = Throw (Error "no credential for Ollama") /\
  fst (generate clockAtZero allOk plainRequest
         (runOps clockAtZero (repeat (OpGenerate plainRequest allOk) 1000)
            (getInstance clockAtZero onlyOllama)))
    = Throw (Error "No LLM provider available").
Proof. vm_compute. split; reflexivity. Qed.

(** C3, amended. [generate] reports exhaustion by throwing. It throws
    [Error "No LLM provider available"] when the selection returns no
    provider. When the call of the selected provider fails, that failure is
    recovered only by one call of a fallback: if no fallback is found the
    failure is thrown again, if the fallback's call fails too that second
    failure is thrown, and if it succeeds [generate] returns the fallback's
    response. When the call of the selected provider succeeds, [generate]
    returns its response. *)
Theorem C3_generate_throws_on_exhaustion :
  forall (clock : nat -> Z) (getCredential : string -> Result string)
         (request : LLMRequest.t) (w : World),
    (forall w1,
       selectProvider clock request w = (None, w1) ->
       generate clock getCredential request w
         = (Throw (Error "No LLM provider available"), w1)) /\
    (forall p w1 e,
       selectProvider clock request w = (Some p, w1) ->
       getCredential (LLMProvider.name p) = Throw e ->
       (forall w5,
          getFallbackProvider clock p
            (snd (callProvider getCredential p request (charged clock p w1))) = (None, w5) ->
          generate clock getCredential request w = (Throw e, w5)) /\
       (forall f w5 e',
          getFallbackProvider clock p
            (snd (callProvider getCredential p request (charged clock p w1))) = (Some f, w5) ->
          getCredential (LLMProvider.name f) = Throw e' ->
          fst (generate clock getCredential request w) = Throw e') /\
       (forall f w5 credential,
          getFallbackProvider clock p
            (snd (callProvider getCredential p request (charged clock p w1))) = (Some f, w5) ->
          getCredential (LLMProvider.name f) = Ok credential ->
          exists response,
            fst (generate clock getCredential request w) = Ok response /\
            LLMResponse.provider response = LLMProvider.name f /\
            LLMResponse.text response = "[Response from " +:+ LLMProvider.name f +:+ "]")) /\
    (forall p w1 credential,
       selectProvider clock request w = (Some p, w1) ->
       getCredential (LLMProvider.name p) = Ok credential ->
       exists response,
         fst (generate clock getCredential request w) = Ok response /\
         LLMResponse.provider response = LLMProvider.name p /\
         LLMResponse.text response = "[Response from " +:+ LLMProvider.name p +:+ "]").
Proof.
  intros clock getCredential request w. split; [|split].
  - intros w1 Hsel. now rewrite generate_eq, Hsel.
  - intros p w1 e Hsel Hfail. rewrite generate_eq, Hsel. cbn zeta.
    pose proof (callProvider_fst getCredential p request (charged clock p w1)) as Hr.
    destruct (callProvider getCredential p request (charged clock p w1)) as [r w4].
    cbn [fst snd] in *. rewrite Hfail in Hr. subst r.
    split; [|split].
    + intros w5 Hfb. now rewrite Hfb.
    + intros f w5 e' Hfb Hfail'. rewrite Hfb.
      pose proof (callProvider_fst getCredential f request w5) as Hr.
      destruct (callProvider getCredential f request w5) as [r w6].
      cbn [fst] in Hr. rewrite Hfail' in Hr. now subst r.
    + intros f w5 credential Hfb Hok. rewrite Hfb.
      pose proof (callProvider_fst getCredential f request w5) as Hr.
      destruct (callProvider getCredential f request w5) as [r w6].
      cbn [fst] in Hr. rewrite Hok in Hr. subst r.
      eexists. cbn. repeat split.
  - intros p w1 credential Hsel Hok. rewrite generate_eq, Hsel. cbn zeta.
    pose proof (callProvider_fst getCredential p request (charged clock p w1)) as Hr.
    destruct (callProvider getCredential p request (charged clock p w1)) as [r w4].
    cbn [fst] in Hr. rewrite Hok in Hr. subst r.
    eexists. cbn. repeat split.
Qed.

Lemma C3_witness :
  generate clockAtZero allFail plainRequest (getInstance clockAtZero onlyOllama)
  = (Throw (Error "no credential for Ollama"),
     snd (getFallbackProvider clockAtZero (providerNamed "Ollama")
            (snd (callProvider allFail (providerNamed "Ollama") plainRequest
                    (charged clockAtZero (providerNamed "Ollama")
                       (snd (selectProvider clockAtZero plainRequest
                               (getInstance clockAtZero onlyOllama)))))))).
Proof.
  apply (proj1 (proj1 (proj2 (C3_generate_throws_on_exhaustion clockAtZero allFail
                                plainRequest (getInstance clockAtZero onlyOllama)))
                 (providerNamed "Ollama")
                 (snd (selectProvider clockAtZero plainRequest
                         (getInstance clockAtZero onlyOllama)))
                 (Error "no credential for Ollama")
                 ltac:(vm_compute; reflexivity) ltac:(reflexivity))).
  vm_compute. reflexivity.
Defined.

Section Attempts.

Variable clock : nat -> Z.
Variable getCredential : string -> Result string.

Lemma findIndexFrom_lookup nm l : forall i,
  (exists q, In q l /\ LLMProvider.name q = nm) ->
  exists k : nat,
    findIndexFrom nm l i = i + Z.of_nat k /\
    exists q, l !! k = Some q /\ LLMProvider.name q = nm.
Proof.
  induction l as [|q0 l IH]; intros i (q & Hin & Hq); [destruct Hin|].
  cbn [findIndexFrom].
  destruct (String.eqb (LLMProvider.name q0) nm) eqn:E.
  - apply String.eqb_eq in E. exists 0%nat. split; [lia|]. now exists q0.
  - destruct Hin as [-> | Hin]; [apply String.eqb_neq in E; contradiction|].
    destruct (IH (i + 1) (ex_intro _ q (conj Hin Hq))) as (k & Hk & Hq').
    exists (S k). split; [lia | exact Hq'].
Qed.

(** In a well formed world a provider found after the position of [p] in
    the listing does not have the name of [p]. *)
Lemma later_provider_other_name w p f (j : nat) :
  wellFormed w -> enabled w p ->
  getAvailableProviders w !! j = Some f ->
  findIndex (LLMProvider.name p) (getAvailableProviders w) < Z.of_nat j ->
  LLMProvider.name p <> LLMProvider.name f.
Proof.
  intros Hwf Hen Hj Hlt Heq.
  pose proof (getAvailableProviders_names w Hwf) as Hnd.
  apply getAvailableProviders_In in Hen.
  destruct (findIndexFrom_lookup (LLMProvider.name p) (getAvailableProviders w) 0
              (ex_intro _ p (conj Hen eq_refl))) as (k & Hk & q & Hq & Hn).
  unfold findIndex in Hlt. rewrite Hk in Hlt.
  assert (k = j); [|lia].
  apply (NoDup_lookup _ k j (LLMProvider.name p) Hnd).
  - change map with (@fmap list _) . rewrite list_lookup_fmap, Hq. cbn. now rewrite Hn.
  - change map with (@fmap list _). rewrite list_lookup_fmap, Hj. cbn. now rewrite Heq.
Qed.

(** The calls that one [generate] adds to the log. *)
Lemma generate_invoked request w :
  let w' := snd (generate clock getCredential request w) in
  match selectProvider clock request w with
  | (None, _) => invoked w' = invoked w
  | (Some p, w1) =>
      match getCredential (LLMProvider.name p) with
      | Ok _ => invoked w' = (invoked w ++ [LLMProvider.name p])%list
      | Throw _ =>
          match getFallbackProvider clock p
                  (snd (callProvider getCredential p request (charged clock p w1))) with
          | (None, _) => invoked w' = (invoked w ++ [LLMProvider.name p])%list
          | (Some f, _) =>
              invoked w' = (invoked w ++ [LLMProvider.name p; LLMProvider.name f])%list
          end
      end
  end.
Proof.
  cbn zeta.
  pose proof (generate_snd clock getCredential request w) as G. cbn zeta in G.
  pose proof (selectProvider_rolled clock request w) as (_ & Hi & _).
  destruct (selectProvider clock request w) as [[p|] w1]; cbn [snd] in Hi;
    [|now rewrite G].
  pose proof (getFallbackProvider_rolled clock p
                (snd (callProvider getCredential p request (charged clock p w1))))
    as (_ & Hi5 & _).
  rewrite callProvider_snd in Hi5, G |- *.
  destruct (getCredential (LLMProvider.name p)); [rewrite G; cbn; now rewrite Hi|].
  destruct (getFallbackProvider clock p _) as [[f|] w5]; cbn [snd] in Hi5; cbn in Hi5.
  - rewrite callProvider_snd in G.
    destruct (getCredential (LLMProvider.name f)); rewrite G; cbn;
      rewrite Hi5, Hi, <- app_assoc; reflexivity.
  - rewrite G, Hi5, Hi. reflexivity.
Qed.

Lemma within_advance_zero w p :
  countOf w (LLMProvider.name p) = 0 -> 0 < LLMProvider.rateLimit p ->
  within (advance clock w) p = true.
Proof.
  intros Hz Hl. unfold within.
  destruct (countOf_advance clock w (LLMProvider.name p)) as [-> | ->];
    [rewrite Hz|]; now apply Z.ltb_lt.
Qed.

Lemma providerConfigs_positive :
  Forall (fun c => 0 < LLMProvider.rateLimit c) providerConfigs.
Proof. unfold providerConfigs. repeat constructor; cbn; lia. Qed.

(** What one [generate] returns or throws, along the same paths. *)
Lemma generate_outcome request w :
  match selectProvider clock request w with
  | (None, _) =>
      fst (generate clock getCredential request w)
        = Throw (Error "No LLM provider available")
  | (Some p, w1) =>
      match getCredential (LLMProvider.name p) with
      | Ok _ => isThrow (fst (generate clock getCredential request w)) = false
      | Throw e =>
          match getFallbackProvider clock p
                  (snd (callProvider getCredential p request (charged clock p w1))) with
          | (None, _) => fst (generate clock getCredential request w) = Throw e
          | (Some f, _) =>
              match getCredential (LLMProvider.name f) with
              | Ok _ => isThrow (fst (generate clock getCredential request w)) = false
              | Throw e' => fst (generate clock getCredential request w) = Throw e'
              end
          end
      end
  end.
Proof.
  rewrite generate_eq.
  destruct (selectProvider clock request w) as [[p|] w1]; [|reflexivity].
  cbn zeta.
  pose proof (callProvider_fst getCredential p request (charged clock p w1)) as Hr.
  destruct (callProvider getCredential p request (charged clock p w1)) as [r w4].
  cbn [fst snd] in *.
  destruct (getCredential (LLMProvider.name p)); subst r; [reflexivity|].
  destruct (getFallbackProvider clock p w4) as [[f|] w5]; [|reflexivity].
  pose proof (callProvider_fst getCredential f request w5) as Hr.
  destruct (callProvider getCredential f request w5) as [r w6].
  cbn [fst] in Hr.
  destruct (getCredential (LLMProvider.name f)); subst r; reflexivity.
Qed.

(** In a well formed world with every count at zero and no limit at zero,
    a request with no preference and no required capabilities whose calls
    all fail calls the first two providers of the listing, and no other. *)
Lemma generate_two_calls request w p1 p2 rest :
  (forall nm, isThrow (getCredential nm) = true) ->
  truthyString (LLMRequest.preferredProvider request) = None ->
  nonEmptyList (LLMRequest.requiredCapabilities request) = None ->
  wellFormed w -> (forall nm, countOf w nm = 0) ->
  (forall q, enabled w q -> 0 < LLMProvider.rateLimit q) ->
  getAvailableProviders w = p1 :: p2 :: rest ->
  invoked (snd (generate clock getCredential request w))
    = (invoked w ++ [LLMProvider.name p1; LLMProvider.name p2])%list /\
  exists e,
    getCredential (LLMProvider.name p2) = Throw e /\
    fst (generate clock getCredential request w) = Throw e.
Proof.
  intros Hall Hpref Hcaps Hwf Hz Hlim Hav.
  assert (Hpos : forall q, In q (getAvailableProviders w) -> 0 < LLMProvider.rateLimit q).
  { intros q Hq. now apply Hlim, getAvailableProviders_In. }
  assert (Hne : LLMProvider.name p1 <> LLMProvider.name p2).
  { pose proof (getAvailableProviders_names w Hwf) as Hnd. rewrite Hav in Hnd.
    cbn in Hnd. apply NoDup_cons in Hnd as [Hnd _]. intros E. apply Hnd.
    rewrite E. apply list_elem_of_here. }
  assert (Hsel : selectProvider clock request w = (Some p1, advance clock w)).
  { rewrite (selectProvider_default clock request w Hpref Hcaps), Hav.
    rewrite firstWithinLimit_cons.
    rewrite within_advance_zero; [reflexivity | apply Hz |].
    apply Hpos. rewrite Hav. now left. }
  assert (Hfb : fst (getFallbackProvider clock p1
                       (snd (callProvider getCredential p1 request
                               (charged clock p1 (advance clock w))))) = Some p2).
  { rewrite callProvider_snd.
    set (w4 := mkWorld _ _ _ _ _).
    assert (Hav4 : getAvailableProviders w4 = p1 :: p2 :: rest).
    { rewrite <- Hav. unfold getAvailableProviders.
      replace (providers w4) with (providers (advance clock w)) by reflexivity.
      now rewrite advance_providers. }
    assert (Hc4 : countOf w4 (LLMProvider.name p2) = 0).
    { replace (countOf w4 (LLMProvider.name p2))
        with (countOf (charged clock p1 (advance clock w)) (LLMProvider.name p2))
        by reflexivity.
      rewrite countOf_charged. unfold chargeOf.
      destruct (String.eqb _ _) eqn:E; [apply String.eqb_eq in E; congruence|].
      destruct (countOf_advance clock w (LLMProvider.name p2)) as [-> | ->];
        [rewrite Hz|]; reflexivity. }
    unfold getFallbackProvider. rewrite Hav4.
    unfold findIndex. cbn [findIndexFrom]. rewrite String.eqb_refl.
    change (drop (Z.to_nat (0 + 1)) (p1 :: p2 :: rest)) with (p2 :: rest).
    rewrite firstWithinLimit_cons.
    rewrite within_advance_zero; [reflexivity | exact Hc4 |].
    apply Hpos. rewrite Hav. right. now left. }
  pose proof (generate_invoked request w) as Hinv.
  pose proof (generate_outcome request w) as Hout.
  cbn zeta in Hinv. rewrite Hsel in Hinv, Hout.
  pose proof (Hall (LLMProvider.name p1)) as H1.
  destruct (getCredential (LLMProvider.name p1)); [discriminate|].
  destruct (getFallbackProvider clock p1 _) as [[f|] w5]; [|discriminate].
  cbn [fst] in Hfb. injection Hfb as ->.
  pose proof (Hall (LLMProvider.name p2)) as H2.
  destruct (getCredential (LLMProvider.name p2)) as [|e2]; [discriminate|].
  split; [exact Hinv|]. exists e2. split; [reflexivity | exact Hout].
Qed.

Lemma initializeLoop_invoked isConfigured configs : forall w,
  invoked (initializeLoop isConfigured configs w) = invoked w.
Proof.
  induction configs as [|c configs IH]; intros w; [reflexivity|].
  cbn [initializeLoop]. destruct (_ || _); now rewrite IH.
Qed.

(** The same in a new instance with at least two enabled providers. *)
Lemma generate_new_instance_two_calls isConfigured request p1 p2 rest :
  (forall nm, isThrow (getCredential nm) = true) ->
  truthyString (LLMRequest.preferredProvider request) = None ->
  nonEmptyList (LLMRequest.requiredCapabilities request) = None ->
  getAvailableProviders (getInstance clock isConfigured) = p1 :: p2 :: rest ->
  invoked (snd (generate clock getCredential request (getInstance clock isConfigured)))
    = [LLMProvider.name p1; LLMProvider.name p2] /\
  exists e,
    getCredential (LLMProvider.name p2) = Throw e /\
    fst (generate clock getCredential request (getInstance clock isConfigured)) = Throw e.
Proof.
  intros Hall Hpref Hcaps Hav.
  destruct (getInstance_fresh clock isConfigured) as (Hwf & Hz & _).
  destruct (generate_two_calls request _ p1 p2 rest Hall Hpref Hcaps Hwf Hz)
    as (Hinv & Herr); [|exact Hav|].
  - intros q Hq. apply getInstance_enabled in Hq.
    pose proof providerConfigs_positive as Hl. rewrite Forall_forall in Hl.
    apply Hl. now apply list_elem_of_In.
  - split; [|exact Herr]. rewrite Hinv.
    rewrite getInstance_eq at 1. now rewrite initializeLoop_invoked.
Qed.

End Attempts.

(** Claude, OpenAI and Ollama enabled, every call failing: [generate] calls
    Claude and OpenAI, never Ollama, and throws OpenAI's failure. *)
Lemma C1_counterexample :
  map LLMProvider.name (getAvailableProviders (getInstance clockAtZero claudeAndOpenAI))
    = ["Claude"; "OpenAI"; "Ollama"] /\
  invoked (snd (generate clockAtZero allFail plainRequest
                  (getInstance clockAtZero claudeAndOpenAI)))
    = ["Claude"; "OpenAI"] /\
  fst (generate clockAtZero allFail plainRequest
         (getInstance clockAtZero claudeAndOpenAI))
    = Throw (Error "no credential for OpenAI").
Proof. vm_compute. repeat split. Qed.

(** C1, amended. When every call of a provider fails, [generate] throws,
    after calling at most two providers, whatever the number of enabled
    providers. When the selection returns no provider it calls none and
    throws "No LLM provider available". Otherwise it calls the selected
    provider and then at most one fallback, which stands strictly after the
    selected provider in the listing by priority; it throws the failure of
    the selected provider when there is no fallback, and the failure of the
    fallback, the second failure, when there is one. In a well formed world
    the providers called are distinct. There is no set of excluded providers
    and no list of attempted providers in the result.
    In a new instance with two or more enabled providers, three say, a
    request with no preferred provider and no required capabilities makes
    exactly two calls, to the first two providers of the listing, and throws
    the failure of the second. *)
Theorem C1_at_most_two_attempts :
  forall (clock : nat -> Z) (getCredential : string -> Result string)
         (request : LLMRequest.t),
    (forall nm, isThrow (getCredential nm) = true) ->
    (forall w : World,
       isThrow (fst (generate clock getCredential request w)) = true /\
       exists attempted : list string,
         invoked (snd (generate clock getCredential request w))
           = (invoked w ++ attempted)%list /\
         (length attempted <= 2)%nat /\
         (wellFormed w -> NoDup attempted) /\
         match fst (selectProvider clock request w) with
         | None =>
             attempted = [] /\
             fst (generate clock getCredential request w)
               = Throw (Error "No LLM provider available")
         | Some p =>
             (attempted = [LLMProvider.name p] /\
              exists e,
                getCredential (LLMProvider.name p) = Throw e /\
                fst (generate clock getCredential request w) = Throw e) \/
             (exists (f : LLMProvider.t) (j : nat),
                attempted = [LLMProvider.name p; LLMProvider.name f] /\
                getAvailableProviders w !! j = Some f /\
                findIndex (LLMProvider.name p) (getAvailableProviders w) < Z.of_nat j /\
                exists e,
                  getCredential (LLMProvider.name f) = Throw e /\
                  fst (generate clock getCredential request w) = Throw e)
         end) /\
    (forall (isConfigured : string -> bool) (p1 p2 : LLMProvider.t)
            (rest : list LLMProvider.t),
       truthyString (LLMRequest.preferredProvider request) = None ->
       nonEmptyList (LLMRequest.requiredCapabilities request) = None ->
       getAvailableProviders (getInstance clock isConfigured) = p1 :: p2 :: rest ->
       invoked (snd (generate clock getCredential request
                       (getInstance clock isConfigured)))
         = [LLMProvider.name p1; LLMProvider.name p2] /\
       exists e,
         getCredential (LLMProvider.name p2) = Throw e /\
         fst (generate clock getCredential request (getInstance clock isConfigured))
           = Throw e).
Proof.
  intros clock getCredential request Hall. split.
  2: { intros isConfigured p1 p2 rest Hpref Hcaps Hav.
       now apply (generate_new_instance_two_calls clock getCredential
                    isConfigured request p1 p2 rest). }
  intros w.
  pose proof (generate_invoked clock getCredential request w) as Hinv.
  pose proof (generate_outcome clock getCredential request w) as Hout.
  pose proof (selectProvider_Some clock request w) as Hsome.
  pose proof (selectProvider_rolled clock request w) as (Hprov & _).
  cbn zeta in Hinv.
  destruct (selectProvider clock request w) as [[p|] w1]; cbn [fst snd] in *.
  - destruct (Hsome p w1 eq_refl) as (Hen & _).
    pose proof (Hall (LLMProvider.name p)) as Hp.
    destruct (getCredential (LLMProvider.name p)) as [|e] eqn:Ep; [discriminate|].
    pose proof (getFallbackProvider_index clock p
                  (snd (callProvider getCredential p request (charged clock p w1))))
      as Hidx.
    assert (Hav : getAvailableProviders
                    (snd (callProvider getCredential p request (charged clock p w1)))
                  = getAvailableProviders w).
    { rewrite callProvider_snd. unfold getAvailableProviders. cbn. now rewrite Hprov. }
    rewrite Hav in Hidx.
    destruct (getFallbackProvider clock p _) as [[f|] w5].
    + destruct (Hidx f w5 eq_refl) as (j & Hj & Hlt).
      pose proof (Hall (LLMProvider.name f)) as Hf.
      destruct (getCredential (LLMProvider.name f)) as [|e'] eqn:Ef; [discriminate|].
      split; [now rewrite Hout|].
      exists [LLMProvider.name p; LLMProvider.name f].
      split; [exact Hinv|]. split; [cbn; lia|]. split.
      * intros Hwf. apply NoDup_cons. split; [|apply NoDup_singleton].
        intros Hin. apply list_elem_of_singleton in Hin.
        exact (later_provider_other_name w p f j Hwf Hen Hj Hlt Hin).
      * right. exists f, j. repeat split; auto. exists e'. now rewrite Ef.
    + split; [now rewrite Hout|].
      exists [LLMProvider.name p].
      split; [exact Hinv|]. split; [cbn; lia|].
      split; [intros _; apply NoDup_singleton|].
      left. split; [reflexivity|]. exists e. auto.
  - split; [now rewrite Hout|].
    exists []. split; [now rewrite app_nil_r|]. split; [cbn; lia|].
    split; [intros _; constructor|]. split; [reflexivity | exact Hout].
Qed.

(** Claude, OpenAI and Ollama enabled and failing: two calls, and the
    failure thrown is OpenAI's, the second. *)
Lemma C1_witness :
  invoked (snd (generate clockAtZero allFail plainRequest
                  (getInstance clockAtZero claudeAndOpenAI)))
    = ["Claude"; "OpenAI"] /\
  fst (generate clockAtZero allFail plainRequest
         (getInstance clockAtZero claudeAndOpenAI))
    = Throw (Error "no credential for OpenAI").
Proof.
  destruct (C1_at_most_two_attempts clockAtZero allFail plainRequest
              ltac:(intros nm; reflexivity)) as (_ & Hnew).
  destruct (Hnew claudeAndOpenAI (providerNamed "Claude") (providerNamed "OpenAI")
              [providerNamed "Ollama"] eq_refl eq_refl ltac:(vm_compute; reflexivity))
    as (Hinv & e & He & Hthrow).
  split; [exact Hinv|].
  rewrite Hthrow. injection He as <-. reflexivity.
Defined.

(** ** Required capabilities (C2) *)

(** Claude and Ollama enabled, "vision" required: no enabled provider has
    it, and the selection returns Claude. *)
Lemma C2_counterexample :
  existsb (hasAllCapabilities ["vision"])
    (getAvailableProviders (getInstance clockAtZero claudeOnly)) = false /\
  fst (selectProvider clockAtZero (requiring ["vision"])
         (getInstance clockAtZero claudeOnly)) = Some (providerNamed "Claude") /\
  hasAllCapabilities ["vision"] (providerNamed "Claude") = false.
Proof. vm_compute. repeat split. Qed.

Section Trace.

Variable clock : nat -> Z.

(** A scan started after [n] rate checks ends after some [m >= n] of them;
    when it returns nothing, each provider that met its condition was
    refused by one of the checks. *)
Lemma firstWithinLimit_trace cond w l : forall n r w',
  firstWithinLimit clock cond l (Nat.iter n (advance clock) w) = (r, w') ->
  exists m, (n <= m)%nat /\ w' = Nat.iter m (advance clock) w /\
    (r = None ->
     forall q, In q l -> cond q = true ->
       exists k, within (Nat.iter (S k) (advance clock) w) q = false).
Proof.
  induction l as [|p l IH]; intros n r w' H.
  - injection H as <- <-. exists n. repeat split; [lia|]. intros _ q [].
  - rewrite firstWithinLimit_cons in H.
    destruct (cond p) eqn:Hc.
    + destruct (within (advance clock (Nat.iter n (advance clock) w)) p) eqn:Hw.
      * injection H as <- <-. exists (S n). repeat split; [lia|]. discriminate.
      * destruct (IH (S n) r w' H) as (m & Hm & Hw' & Hrej).
        exists m. repeat split; [lia | exact Hw'|].
        intros Hr q [<- | Hq] Hcq; [exists n; exact Hw | now apply Hrej].
    + destruct (IH n r w' H) as (m & Hm & Hw' & Hrej).
      exists m. repeat split; [exact Hm | exact Hw'|].
      intros Hr q [<- | Hq] Hcq; [congruence | now apply Hrej].
Qed.

End Trace.

(** C2, amended. Take a request with a non-empty list of required
    capabilities and no preferred provider. A provider that the selection
    returns is enabled and below its limit; it has every required
    capability, or else every enabled provider that has them all was
    refused by a rate check of this selection: the selection then fell
    through to the default rule. The selection returns null only when every
    enabled provider was refused by a rate check of this selection.
    When no window reset follows the first rate check of the selection, call
    a provider admitted when its count, as that first check leaves it, is
    below its limit: if some enabled provider has every required capability
    and is admitted, the selection returns the first such provider of the
    listing by priority; if none is, it returns the first admitted provider
    of the listing, whatever its capabilities. *)
Theorem C2_capabilities_then_default :
  forall (clock : nat -> Z) (request : LLMRequest.t) (required : list string) (w : World),
    truthyString (LLMRequest.preferredProvider request) = None ->
    nonEmptyList (LLMRequest.requiredCapabilities request) = Some required ->
    (forall p w',
       selectProvider clock request w = (Some p, w') ->
       enabled w p /\ within w' p = true /\
       (hasAllCapabilities required p = true \/
        forall q, enabled w q -> hasAllCapabilities required q = true ->
          exists k, within (Nat.iter (S k) (advance clock) w) q = false)) /\
    (forall w',
       selectProvider clock request w = (None, w') ->
       forall q, enabled w q ->
         exists k, within (Nat.iter (S k) (advance clock) w) q = false) /\
    (sameWindow clock (advance clock w) ->
     ((exists q, enabled w q /\ hasAllCapabilities required q = true
                 /\ within (advance clock w) q = true) ->
      exists p,
        fst (selectProvider clock request w) = Some p /\
        hasAllCapabilities required p = true /\
        find (fun q => hasAllCapabilities required q && within (advance clock w) q)
             (getAvailableProviders w) = Some p) /\
     ((forall q, enabled w q -> hasAllCapabilities required q = true ->
                 within (advance clock w) q = false) ->
      fst (selectProvider clock request w)
        = find (within (advance clock w)) (getAvailableProviders w))).
Proof.
  intros clock request required w Hpref Hcaps.
  assert (Hsel : selectProvider clock request w =
            match firstWithinLimit clock (hasAllCapabilities required)
                    (getAvailableProviders w) w with
            | (Some p, w2) => (Some p, w2)
            | (None, w2) =>
                firstWithinLimit clock (fun _ => true) (getAvailableProviders w) w2
            end).
  { unfold selectProvider.
    destruct (getAvailableProviders w) as [|p0 l] eqn:E; [reflexivity|].
    cbn [length Nat.eqb]. rewrite selectPreferred_eq, Hpref.
    unfold selectCapable. now rewrite Hcaps. }
  pose proof (firstWithinLimit_trace clock (hasAllCapabilities required) w
                (getAvailableProviders w) 0) as Tcap.
  split; [|split].
  - intros p w' H. split; [|split].
    + eapply selectProvider_Some; eauto.
    + eapply selectProvider_Some; eauto.
    + rewrite Hsel in H.
      destruct (firstWithinLimit clock (hasAllCapabilities required) _ w)
        as [[p'|] w2] eqn:Hcap.
      * injection H as <- <-. left.
        now apply firstWithinLimit_Some in Hcap as (_ & Hc & _).
      * right. intros q Hen Hq.
        destruct (Tcap None w2 Hcap) as (m & _ & _ & Hrej).
        apply Hrej; [reflexivity | now apply getAvailableProviders_In | exact Hq].
  - intros w' H q Hen. rewrite Hsel in H.
    destruct (firstWithinLimit clock (hasAllCapabilities required) _ w)
      as [[p'|] w2] eqn:Hcap; [discriminate|].
    destruct (Tcap None w2 Hcap) as (m & _ & -> & _).
    destruct (firstWithinLimit_trace clock (fun _ => true) w
                (getAvailableProviders w) m None w' H) as (_ & _ & _ & Hrej).
    apply Hrej; [reflexivity | now apply getAvailableProviders_In | reflexivity].
  - intros Hwin.
    destruct (selectProvider_settled clock request w Hwin) as (Hch & _).
    unfold choose in Hch. rewrite Hpref, Hcaps in Hch.
    set (capable := fun q => hasAllCapabilities required q
                             && within (advance clock w) q) in *.
    split.
    + intros (q & Hen & Hhas & Hw).
      destruct (find capable (getAvailableProviders w)) as [p|] eqn:Hfind.
      * exists p. split; [exact Hch|]. split; [|reflexivity].
        apply find_some in Hfind as (_ & Hc). unfold capable in Hc.
        now apply andb_true_iff in Hc.
      * exfalso. apply getAvailableProviders_In in Hen.
        pose proof (find_none _ _ Hfind q Hen) as Hc. unfold capable in Hc.
        rewrite Hhas, Hw in Hc. discriminate.
    + intros Hnone.
      destruct (find capable (getAvailableProviders w)) as [p|] eqn:Hfind; [|exact Hch].
      exfalso. apply find_some in Hfind as (Hin & Hc). unfold capable in Hc.
      apply andb_true_iff in Hc as (Hhas & Hw).
      apply getAvailableProviders_In in Hin.
      rewrite (Hnone p Hin Hhas) in Hw. discriminate.
Qed.

(** Every provider enabled and "vision" required: Gemini, fifth by
    priority, is returned. Claude and Ollama enabled and "vision" required:
    the default rule returns Claude. *)
Lemma C2_witness :
  (exists p,
     fst (selectProvider clockAtZero (requiring ["vision"])
            (getInstance clockAtZero everyProvider)) = Some p /\
     hasAllCapabilities ["vision"] p = true /\
     LLMProvider.name p = "Gemini") /\
  fst (selectProvider clockAtZero (requiring ["vision"])
         (getInstance clockAtZero claudeOnly))
    = find (within (advance clockAtZero (getInstance clockAtZero claudeOnly)))
           (getAvailableProviders (getInstance clockAtZero claudeOnly)).
Proof.
  split.
  - destruct (proj1 (proj2 (proj2 (C2_capabilities_then_default clockAtZero
                       (requiring ["vision"]) ["vision"]
                       (getInstance clockAtZero everyProvider) eq_refl eq_refl))
                     ltac:(intros t _; vm_compute; discriminate)))
      as (p & Hsel & Hhas & Hfind).
    + exists (providerNamed "Gemini"). vm_compute. repeat split.
      do 4 right. left. reflexivity.
    + exists p. split; [exact Hsel|]. split; [exact Hhas|].
      vm_compute in Hfind. now injection Hfind as <-.
  - apply (proj2 (proj2 (proj2 (C2_capabilities_then_default clockAtZero
                       (requiring ["vision"]) ["vision"]
                       (getInstance clockAtZero claudeOnly) eq_refl eq_refl))
                   ltac:(intros t _; vm_compute; discriminate))).
    intros q Hen Hhas. vm_compute in Hen.
    destruct Hen as [<- | [<- | []]]; vm_compute in Hhas; discriminate.
Defined.

(** * Further properties of the orchestrator *)

(** ** Construction and the listing *)

Section Construction.

Variable clock : nat -> Z.

Lemma mapSet_new {V} k (v : V) m :
  ~ In k (map fst m) -> mapSet k v m = (m ++ [(k, v)])%list.
Proof.
  induction m as [|[k' v'] m IH]; cbn; [reflexivity|].
  intros Hk. destruct (String.eqb k' k) eqn:E.
  - apply String.eqb_eq in E. exfalso. apply Hk. now left.
  - rewrite IH; [reflexivity|]. intros H. apply Hk. now right.
Qed.

Lemma initializeLoop_providers isConfigured configs : forall w,
  NoDup (map fst (providers w) ++ map LLMProvider.name configs) ->
  providers (initializeLoop isConfigured configs w)
    = (providers w
       ++ map (fun c => (LLMProvider.name c, c))
              (List.filter (configuredOrOllama isConfigured) configs))%list.
Proof.
  induction configs as [|c configs IH]; intros w Hnd.
  - cbn. now rewrite app_nil_r.
  - cbn [initializeLoop List.filter]. unfold configuredOrOllama at 1.
    assert (Hperm : Permutation
                      (map fst (providers w) ++ map LLMProvider.name (c :: configs))
                      (LLMProvider.name c
                       :: (map fst (providers w) ++ map LLMProvider.name configs)))
      by (cbn; symmetry; apply Permutation_middle).
    rewrite Hperm in Hnd. apply NoDup_cons in Hnd as [Hc Hnd].
    destruct (_ || _).
    + rewrite IH; cbn [providers].
      * rewrite mapSet_new; [cbn; now rewrite <- app_assoc|].
        intros H. apply Hc, elem_of_app. left. now apply list_elem_of_In.
      * rewrite mapSet_new.
        2:{ intros H. apply Hc, elem_of_app. left. now apply list_elem_of_In. }
        rewrite map_app. cbn. rewrite <- app_assoc. cbn.
        assert (Hperm' : Permutation
                  (map fst (providers w)
                   ++ LLMProvider.name c :: map LLMProvider.name configs)
                  (LLMProvider.name c
                   :: (map fst (providers w) ++ map LLMProvider.name configs)))
          by (symmetry; apply Permutation_middle).
        rewrite Hperm'. apply NoDup_cons. split; assumption.
    + now apply IH.
Qed.

Lemma initializeLoop_lastReset isConfigured configs : forall w,
  lastReset (initializeLoop isConfigured configs w) = lastReset w /\
  invoked (initializeLoop isConfigured configs w) = invoked w /\
  clockReads (initializeLoop isConfigured configs w) = clockReads w.
Proof.
  induction configs as [|c configs IH]; intros w; [auto|].
  cbn [initializeLoop]. destruct (_ || _); [|apply IH].
  destruct (IH (mkWorld (mapSet (LLMProvider.name c) c (providers w))
                        (<[LLMProvider.name c:=0]> (requestCounts w))
                        (lastReset w) (clockReads w) (invoked w))) as (? & ? & ?).
  auto.
Qed.

Lemma getInstance_providers isConfigured :
  providers (getInstance clock isConfigured)
    = map (fun c => (LLMProvider.name c, c))
          (List.filter (configuredOrOllama isConfigured) providerConfigs).
Proof.
  rewrite getInstance_eq, initializeLoop_providers; [reflexivity|].
  cbn [providers app]. apply providerConfigs_names.
Qed.

Lemma map_snd_named (l : list LLMProvider.t) :
  map snd (map (fun c => (LLMProvider.name c, c)) l) = l.
Proof. induction l as [|c l IH]; cbn; [reflexivity | now rewrite IH]. Qed.

Lemma map_fst_named (l : list LLMProvider.t) :
  map fst (map (fun c => (LLMProvider.name c, c)) l) = map LLMProvider.name l.
Proof. induction l as [|c l IH]; cbn; [reflexivity | now rewrite IH]. Qed.

(** Sorting a list that is in order changes nothing. *)
Lemma sortByPriority_sorted_id l :
  StronglySorted byPriority l -> sortByPriority l = l.
Proof.
  induction 1 as [|x l Hs IH Hx]; [reflexivity|].
  change (sortByPriority (x :: l)) with (insertByPriority x (sortByPriority l)).
  rewrite IH. destruct l as [|y l]; [reflexivity|].
  cbn [insertByPriority]. apply Forall_cons in Hx as [Hxy _]. unfold byPriority in Hxy.
  apply Z.leb_le in Hxy. now rewrite Hxy.
Qed.

Lemma filter_StronglySorted (f : LLMProvider.t -> bool) l :
  StronglySorted byPriority l -> StronglySorted byPriority (List.filter f l).
Proof.
  induction 1 as [|x l Hs IH Hx]; cbn; [constructor|].
  destruct (f x); [|exact IH].
  constructor; [exact IH|].
  apply Forall_forall. intros y Hy. apply list_elem_of_In, filter_In in Hy as [Hy _].
  rewrite Forall_forall in Hx. apply Hx. now apply list_elem_of_In.
Qed.

Lemma providerConfigs_sorted : StronglySorted byPriority providerConfigs.
Proof.
  unfold providerConfigs.
  repeat (constructor; [|repeat constructor; unfold byPriority; cbn; lia]).
  constructor.
Qed.

(** The listing of a world whose providers are those of construction. *)
Lemma listing_of_construction isConfigured w :
  providers w = providers (getInstance clock isConfigured) ->
  getAvailableProviders w
    = List.filter (configuredOrOllama isConfigured) providerConfigs.
Proof.
  intros Hp. unfold getAvailableProviders.
  rewrite Hp, getInstance_providers, map_snd_named.
  apply sortByPriority_sorted_id, filter_StronglySorted, providerConfigs_sorted.
Qed.

(** Equal priorities keep the order of insertion. *)
Lemma insertByPriority_filter k x l :
  List.filter (fun p => LLMProvider.priority p =? k) (insertByPriority x l)
  = List.filter (fun p => LLMProvider.priority p =? k) (x :: l).
Proof.
  induction l as [|y l IH]; [reflexivity|].
  cbn [insertByPriority].
  destruct (LLMProvider.priority x <=? LLMProvider.priority y) eqn:E; [reflexivity|].
  apply Z.leb_gt in E.
  cbn [List.filter] in *. rewrite IH.
  destruct (LLMProvider.priority y =? k) eqn:Ey;
    destruct (LLMProvider.priority x =? k) eqn:Ex; try reflexivity.
  apply Z.eqb_eq in Ey, Ex. lia.
Qed.

End Construction.

(** X1. Construction enables exactly the providers of the catalog whose
    credential is configured, and Ollama whether configured or not, in the
    order of the catalog and each under its own name; it sets every count
    to zero, starts the window at the time of construction and has called
    no provider. *)
Theorem X1_construction_enables_configured_and_Ollama :
  forall (clock : nat -> Z) (isConfigured : string -> bool),
    providers (getInstance clock isConfigured)
      = map (fun c => (LLMProvider.name c, c))
            (List.filter (fun c => isConfigured (LLMProvider.name c)
                                   || String.eqb (LLMProvider.name c) "Ollama")
                         providerConfigs) /\
    enabled (getInstance clock isConfigured) (providerNamed "Ollama") /\
    (forall p, enabled (getInstance clock isConfigured) p <->
               In p providerConfigs /\
               (isConfigured (LLMProvider.name p) = true \/ LLMProvider.name p = "Ollama")) /\
    (forall nm, countOf (getInstance clock isConfigured) nm = 0) /\
    lastReset (getInstance clock isConfigured) = clock 0%nat /\
    invoked (getInstance clock isConfigured) = [].
Proof.
  intros clock isConfigured.
  pose proof (getInstance_providers clock isConfigured) as Hp.
  assert (Hen : forall p, enabled (getInstance clock isConfigured) p <->
                  In p providerConfigs /\ configuredOrOllama isConfigured p = true).
  { intros p. unfold enabled. rewrite Hp, map_snd_named. apply filter_In. }
  split; [exact Hp|]. split; [|split; [|split; [|split]]].
  - apply Hen. split; [vm_compute; do 3 right; now left|].
    unfold configuredOrOllama. apply orb_true_iff. right. reflexivity.
  - intros p. rewrite Hen. unfold configuredOrOllama.
    rewrite orb_true_iff, String.eqb_eq. reflexivity.
  - apply (getInstance_fresh clock isConfigured).
  - rewrite getInstance_eq.
    now destruct (initializeLoop_lastReset isConfigured providerConfigs
                    (mkWorld [] ∅ (clock 0%nat) 1%nat [])) as (-> & _).
  - rewrite getInstance_eq.
    now destruct (initializeLoop_lastReset isConfigured providerConfigs
                    (mkWorld [] ∅ (clock 0%nat) 1%nat [])) as (_ & -> & _).
Qed.

(** X2. In every world reached from construction the listing of the
    enabled providers is the catalog, in its own order, restricted to the
    providers that are configured or are Ollama: no operation changes it,
    and it is never empty. *)
Theorem X2_listing_is_filtered_catalog :
  forall (clock : nat -> Z) (isConfigured : string -> bool) (ops : list Op),
    getAvailableProviders (runOps clock ops (getInstance clock isConfigured))
      = List.filter (fun c => isConfigured (LLMProvider.name c)
                              || String.eqb (LLMProvider.name c) "Ollama")
                    providerConfigs /\
    In (providerNamed "Ollama")
       (getAvailableProviders (runOps clock ops (getInstance clock isConfigured))).
Proof.
  intros clock isConfigured ops.
  pose proof (listing_of_construction clock isConfigured
                (runOps clock ops (getInstance clock isConfigured))
                (runOps_providers clock ops _)) as H.
  split; [exact H|]. rewrite H. apply filter_In.
  split; [vm_compute; do 3 right; now left|].
  apply orb_true_iff. right. reflexivity.
Qed.

(** X3. The listing is stable: for every priority value, the enabled
    providers of that priority appear in the listing in the order in which
    the map of providers holds them. *)
Theorem X3_listing_keeps_insertion_order_of_ties :
  forall (w : World) (k : Z),
    List.filter (fun p => LLMProvider.priority p =? k) (getAvailableProviders w)
    = List.filter (fun p => LLMProvider.priority p =? k) (map snd (providers w)).
Proof.
  intros w k. unfold getAvailableProviders.
  induction (map snd (providers w)) as [|x l IH]; [reflexivity|].
  change (sortByPriority (x :: l)) with (insertByPriority x (sortByPriority l)).
  rewrite insertByPriority_filter.
  cbn [List.filter]. now rewrite IH.
Qed.

(** ** The response of [generate] *)

Section Response.

Variable clock : nat -> Z.
Variable getCredential : string -> Result string.

Lemma iter_advance_clockReads w m :
  clockReads (Nat.iter m (advance clock) w) = (clockReads w + m)%nat.
Proof.
  induction m as [|m IH]; simpl; [lia|].
  rewrite advance_clockReads, IH. lia.
Qed.

Lemma getFallbackProvider_clockReads current w :
  (clockReads w <= clockReads (snd (getFallbackProvider clock current w)))%nat.
Proof.
  unfold getFallbackProvider.
  destruct (firstWithinLimit clock (fun _ => true) _ w) as [r w'] eqn:E.
  destruct (firstWithinLimit_trace clock (fun _ => true) w _ 0 r w' E) as (m & _ & -> & _).
  cbn [snd]. rewrite iter_advance_clockReads. lia.
Qed.

(** A response that [generate] returns, for the provider [p] that answered:
    the fields, and the two clock reads of the latency. *)
Lemma generate_Ok request w response w' :
  generate clock getCredential request w = (Ok response, w') ->
  exists p (i j : nat),
    enabled w p /\
    isThrow (getCredential (LLMProvider.name p)) = false /\
    response = LLMResponse.mk ("[Response from " +:+ LLMProvider.name p +:+ "]")
                 (LLMProvider.name p) (LLMProvider.model p)
                 (estimateTokens ("[Response from " +:+ LLMProvider.name p +:+ "]"))
                 (clock j - clock i) false /\
    (clockReads w <= i)%nat /\ (i < j)%nat /\ clockReads w' = S j /\
    last (invoked w') = Some (LLMProvider.name p).
Proof.
  rewrite generate_eq.
  pose proof (selectProvider_Some clock request w) as Hsome.
  pose proof (selectProvider_rolled clock request w) as (Hprov & _).
  destruct (selectProvider clock request w) as [[p|] w1] eqn:Hsel; [|discriminate].
  destruct (Hsome p w1 eq_refl) as (Hen & _). cbn [snd] in Hprov. cbn zeta.
  assert (Hreads : (clockReads w <= clockReads w1)%nat).
  { unfold selectProvider in Hsel.
    destruct (length _ =? 0)%nat; [discriminate|].
    rewrite selectPreferred_eq in Hsel.
    assert (Hscan : forall cond l wa r wb,
              firstWithinLimit clock cond l wa = (r, wb) ->
              (clockReads wa <= clockReads wb)%nat).
    { intros cond l wa r wb E.
      destruct (firstWithinLimit_trace clock cond wa l 0 r wb E) as (m & _ & -> & _).
      rewrite iter_advance_clockReads. lia. }
    assert (Hrest : forall wa,
              match selectCapable clock request (getAvailableProviders w) wa with
              | (Some provider, w2) => (Some provider, w2)
              | (None, w2) =>
                  firstWithinLimit clock (fun _ => true) (getAvailableProviders w) w2
              end = (Some p, w1) -> (clockReads wa <= clockReads w1)%nat).
    { intros wa. unfold selectCapable.
      destruct (nonEmptyList _) as [required|].
      - destruct (firstWithinLimit clock (hasAllCapabilities required) _ wa)
          as [[q|] w2] eqn:E2.
        + intros [= <- <-]. eapply Hscan; eauto.
        + intros E3. apply Hscan in E2, E3. lia.
      - apply Hscan. }
    destruct (truthyString _); [|now apply Hrest].
    destruct (mapGet _ _); [|now apply Hrest].
    destruct (within _ _).
    - injection Hsel as _ <-. rewrite advance_clockReads. lia.
    - apply Hrest in Hsel. rewrite advance_clockReads in Hsel. lia. }
  pose proof (callProvider_fst getCredential p request (charged clock p w1)) as Hr.
  pose proof (callProvider_snd getCredential p request (charged clock p w1)) as Hw4.
  destruct (callProvider getCredential p request (charged clock p w1)) as [r w4].
  cbn [fst snd] in Hr, Hw4.
  destruct (getCredential (LLMProvider.name p)) eqn:Hp; subst r.
  - intros [= <- <-]. exists p, (clockReads w1), (clockReads w4).
    subst w4. cbn. repeat split; auto; try lia; try apply last_snoc. now rewrite Hp.
  - pose proof (getFallbackProvider_index clock p w4) as Hidx.
    pose proof (getFallbackProvider_clockReads p w4) as Hmono.
    destruct (getFallbackProvider clock p w4) as [[f|] w5]; [|discriminate].
    destruct (Hidx f w5 eq_refl) as (k & Hk & _). cbn [snd] in Hmono.
    pose proof (callProvider_fst getCredential f request w5) as Hr.
    pose proof (callProvider_snd getCredential f request w5) as Hw6.
    destruct (callProvider getCredential f request w5) as [r w6].
    cbn [fst snd] in Hr, Hw6.
    destruct (getCredential (LLMProvider.name f)) eqn:Hf; subst r; [|discriminate].
    intros [= <- <-]. exists f, (clockReads w1), (clockReads w6).
    subst w6 w4. cbn in *.
    repeat split; auto; try lia; try apply last_snoc; [|now rewrite Hf].
    apply getAvailableProviders_In.
    replace (getAvailableProviders w) with
      (getAvailableProviders
         (mkWorld (providers w1)
            (<[LLMProvider.name p:=countOf
                 (mkWorld (providers w1) (requestCounts w1) (lastReset w1)
                    (S (clockReads w1)) (invoked w1)) (LLMProvider.name p) + 1]>
               (requestCounts w1))
            (lastReset w1) (S (clockReads w1)) (invoked w1 ++ [LLMProvider.name p])))
      by (unfold getAvailableProviders; cbn; now rewrite Hprov).
    apply list_elem_of_In, list_elem_of_lookup. eauto.
Qed.

End Response.

(** X5. A response that [generate] returns names an enabled provider whose
    credential was fetched without failure; it carries that provider's
    model, the placeholder text built from its name, the token estimate of
    that text and [cached = false]; and that provider is the last one that
    was called. *)
Theorem X5_response_describes_the_provider_that_answered :
  forall (clock : nat -> Z) (getCredential : string -> Result string)
         (request : LLMRequest.t) (w w' : World) (response : LLMResponse.t),
    generate clock getCredential request w = (Ok response, w') ->
    exists p,
      enabled w p /\
      isThrow (getCredential (LLMProvider.name p)) = false /\
      LLMResponse.provider response = LLMProvider.name p /\
      LLMResponse.model response = LLMProvider.model p /\
      LLMResponse.text response = "[Response from " +:+ LLMProvider.name p +:+ "]" /\
      LLMResponse.tokensUsed response = estimateTokens (LLMResponse.text response) /\
      LLMResponse.cached response = false /\
      last (invoked w') = Some (LLMProvider.name p).
Proof.
  intros clock getCredential request w w' response H.
  destruct (generate_Ok clock getCredential request w response w' H)
    as (p & i & j & Hen & Hok & -> & _ & _ & _ & Hlast).
  exists p. cbn. repeat split; auto.
Qed.

(** Claude fails and Ollama answers. *)
Lemma X5_witness :
  exists p,
    LLMProvider.name p = "Ollama" /\
    LLMResponse.model
      (LLMResponse.mk "[Response from Ollama]" "Ollama" "llama2" 6 0 false)
      = LLMProvider.model p /\
    last (invoked (snd (generate clockAtZero (failOnly "Claude") plainRequest
                          (getInstance clockAtZero claudeOnly))))
      = Some (LLMProvider.name p).
Proof.
  destruct (X5_response_describes_the_provider_that_answered clockAtZero
              (failOnly "Claude") plainRequest (getInstance clockAtZero claudeOnly)
              (snd (generate clockAtZero (failOnly "Claude") plainRequest
                      (getInstance clockAtZero claudeOnly)))
              (LLMResponse.mk "[Response from Ollama]" "Ollama" "llama2" 6 0 false))
    as (p & _ & _ & Hname & Hmodel & _ & _ & _ & Hlast).
  - vm_compute. reflexivity.
  - exists p. split; [symmetry; exact Hname|]. split; [exact Hmodel | exact Hlast].
Defined.

(** X6. The latency of a response is the difference of two reads of the
    clock made during the call, the later minus the earlier; so it is never
    negative when the clock never goes backwards. *)
Theorem X6_latency_is_not_negative_under_a_monotone_clock :
  forall (clock : nat -> Z) (getCredential : string -> Result string)
         (request : LLMRequest.t) (w w' : World) (response : LLMResponse.t),
    generate clock getCredential request w = (Ok response, w') ->
    (exists i j : nat,
       (clockReads w <= i)%nat /\ (i < j)%nat /\ (j < clockReads w')%nat /\
       LLMResponse.latency response = clock j - clock i) /\
    (monotoneClock clock -> 0 <= LLMResponse.latency response).
Proof.
  intros clock getCredential request w w' response H.
  destruct (generate_Ok clock getCredential request w response w' H)
    as (p & i & j & _ & _ & -> & Hi & Hij & Hj & _).
  cbn [LLMResponse.latency]. split.
  - exists i, j. repeat split; auto; lia.
  - intros Hmono. specialize (Hmono i j ltac:(lia)). lia.
Qed.

(** With a clock that advances by one at each read, the first call of a new
    instance has latency 1. *)
Lemma X6_witness :
  0 <= LLMResponse.latency
         (LLMResponse.mk "[Response from Claude]" "Claude" "claude-3-opus-20240229"
            6 1 false).
Proof.
  apply (proj2 (X6_latency_is_not_negative_under_a_monotone_clock clockTicking allOk
                  plainRequest (getInstance clockTicking claudeOnly)
                  (snd (generate clockTicking allOk plainRequest
                          (getInstance clockTicking claudeOnly)))
                  (LLMResponse.mk "[Response from Claude]" "Claude"
                     "claude-3-opus-20240229" 6 1 false)
                  ltac:(vm_compute; reflexivity))).
  intros i j Hij. unfold clockTicking. lia.
Defined.

(** X13. Whatever the credential manager answers, one [generate] fetches at
    most two credentials, for distinct providers in a well formed world:
    none exactly when the selection returns no provider, and exactly one,
    the selected provider's, when that fetch succeeds. *)
Theorem X13_generate_calls_at_most_two_providers :
  forall (clock : nat -> Z) (getCredential : string -> Result string)
         (request : LLMRequest.t) (w : World),
    exists attempted : list string,
      invoked (snd (generate clock getCredential request w))
        = (invoked w ++ attempted)%list /\
      (length attempted <= 2)%nat /\
      (wellFormed w -> NoDup attempted) /\
      (attempted = [] <-> fst (selectProvider clock request w) = None) /\
      (forall p, fst (selectProvider clock request w) = Some p ->
         isThrow (getCredential (LLMProvider.name p)) = false ->
         attempted = [LLMProvider.name p]).
Proof.
  intros clock getCredential request w.
  pose proof (generate_invoked clock getCredential request w) as Hinv.
  pose proof (selectProvider_Some clock request w) as Hsome.
  pose proof (selectProvider_rolled clock request w) as (Hprov & _).
  cbn zeta in Hinv.
  destruct (selectProvider clock request w) as [[p|] w1]; cbn [fst snd] in *.
  2:{ exists []. rewrite app_nil_r.
      split; [exact Hinv|]. split; [cbn; lia|]. split; [intros _; constructor|].
      split; [tauto|]. discriminate. }
  destruct (Hsome p w1 eq_refl) as (Hen & _).
  assert (Hone : exists attempted : list string,
            attempted = [LLMProvider.name p] /\
            (length attempted <= 2)%nat /\ (wellFormed w -> NoDup attempted) /\
            (attempted = [] <-> Some p = None)).
  { eexists. split; [reflexivity|]. split; [cbn; lia|].
    split; [intros _; apply NoDup_singleton|]. split; discriminate. }
  destruct Hone as (one & -> & Hlen1 & Hnd1 & Hiff1).
  destruct (getCredential (LLMProvider.name p)) eqn:Hp.
  { exists [LLMProvider.name p]. repeat (split; [assumption|]).
    now intros q [= <-] _. }
  pose proof (getFallbackProvider_index clock p
                (snd (callProvider getCredential p request (charged clock p w1))))
    as Hidx.
  assert (Hav : getAvailableProviders
                  (snd (callProvider getCredential p request (charged clock p w1)))
                = getAvailableProviders w).
  { rewrite callProvider_snd. unfold getAvailableProviders. cbn. now rewrite Hprov. }
  rewrite Hav in Hidx.
  destruct (getFallbackProvider clock p _) as [[f|] w5].
  - destruct (Hidx f w5 eq_refl) as (j & Hj & Hlt).
    exists [LLMProvider.name p; LLMProvider.name f].
    split; [exact Hinv|]. split; [cbn; lia|]. split; [|split].
    + intros Hwf. apply NoDup_cons. split; [|apply NoDup_singleton].
      intros Hin. apply list_elem_of_singleton in Hin.
      exact (later_provider_other_name w p f j Hwf Hen Hj Hlt Hin).
    + split; discriminate.
    + intros q [= <-]. rewrite Hp. discriminate.
  - exists [LLMProvider.name p]. repeat (split; [assumption|]).
    intros q [= <-]. rewrite Hp. discriminate.
Qed.

(** ** More on the selection *)

Section Selection.

Variable clock : nat -> Z.

Lemma find_agree {A} (f g : A -> bool) l :
  (forall x, In x l -> f x = g x) -> find f l = find g l.
Proof.
  induction l as [|x l IH]; intros H; cbn; [reflexivity|].
  rewrite (H x (or_introl eq_refl)), IH; [reflexivity|].
  intros y Hy. apply H. now right.
Qed.

Lemma within_same_counts w w' p :
  requestCounts w' = requestCounts w -> within w' p = within w p.
Proof. intros H. unfold within, countOf. now rewrite H. Qed.

(** The cascade depends on the world through its providers and the tests
    [within] on the listed providers and on the providers of the map. *)
Lemma choose_agree request w0 w0' available :
  providers w0' = providers w0 ->
  (forall q, In q available \/ In q (map snd (providers w0)) ->
             within w0' q = within w0 q) ->
  choose request w0' available = choose request w0 available.
Proof.
  intros Hp Hw. unfold choose. rewrite Hp.
  assert (E1 : find (within w0') available = find (within w0) available).
  { apply find_agree. intros q Hq. apply Hw. now left. }
  rewrite E1.
  assert (E2 : forall required,
            find (fun p => hasAllCapabilities required p && within w0' p) available
            = find (fun p => hasAllCapabilities required p && within w0 p) available).
  { intros required. apply find_agree. intros q Hq. rewrite Hw; [reflexivity | now left]. }
  destruct (truthyString _) as [nm|]; [|destruct (nonEmptyList _); now rewrite ?E2].
  destruct (mapGet nm (providers w0)) as [preferred|] eqn:Hg;
    [|destruct (nonEmptyList _); now rewrite ?E2].
  rewrite Hw.
  - destruct (within w0 preferred); [reflexivity|].
    destruct (nonEmptyList _); now rewrite ?E2.
  - right. apply mapGet_In in Hg. apply in_map_iff. now exists (nm, preferred).
Qed.

(** The cascade returns nothing exactly when no enabled provider passes the
    test. *)
Lemma choose_None request w0 w :
  providers w0 = providers w ->
  (choose request w0 (getAvailableProviders w) = None <->
   forall q, enabled w q -> within w0 q = false).
Proof.
  intros Hp. unfold choose. rewrite Hp.
  set (available := getAvailableProviders w).
  assert (Hfind : find (within w0) available = None <->
                  forall q, enabled w q -> within w0 q = false).
  { split.
    - intros H q Hq. apply (find_none _ _ H). now apply getAvailableProviders_In.
    - intros H. destruct (find (within w0) available) as [x|] eqn:E; [|reflexivity].
      apply find_some in E as (Hin & Hx).
      apply getAvailableProviders_In in Hin. rewrite (H x Hin) in Hx. discriminate. }
  assert (Hcap : match nonEmptyList (LLMRequest.requiredCapabilities request) with
                 | Some required =>
                     match find (fun p => hasAllCapabilities required p && within w0 p)
                             available with
                     | Some p => Some p
                     | None => find (within w0) available
                     end
                 | None => find (within w0) available
                 end = None <-> forall q, enabled w q -> within w0 q = false).
  { destruct (nonEmptyList _) as [required|]; [|exact Hfind].
    destruct (find (fun p => hasAllCapabilities required p && within w0 p) available)
      as [x|] eqn:E; [|exact Hfind].
    split; [discriminate|]. intros H.
    apply find_some in E as (Hin & Hx). apply andb_true_iff in Hx as (_ & Hx).
    apply getAvailableProviders_In in Hin. rewrite (H x Hin) in Hx. discriminate. }
  destruct (truthyString _) as [nm|]; [|exact Hcap].
  destruct (mapGet nm (providers w)) as [preferred|] eqn:Hg; [|exact Hcap].
  destruct (within w0 preferred) eqn:Hw; [|exact Hcap].
  split; [discriminate|]. intros H.
  assert (Hen : enabled w preferred).
  { apply mapGet_In in Hg. apply in_map_iff. now exists (nm, preferred). }
  rewrite (H preferred Hen) in Hw. discriminate.
Qed.

Lemma find_app_skip {A} (f : A -> bool) l1 x l2 :
  Forall (fun y => f y = false) l1 -> f x = true -> find f (l1 ++ x :: l2) = Some x.
Proof.
  induction 1 as [|y l1 Hy _ IH]; intros Hx; cbn; [now rewrite Hx|].
  rewrite Hy. now apply IH.
Qed.

End Selection.

(** X7. When no window reset follows the first rate check of a selection,
    the selection returns null exactly when every enabled provider is at its
    limit (its count, as that first check leaves it, is not below its
    limit), whatever the request prefers or requires. *)
Theorem X7_selection_is_null_only_when_all_are_limited :
  forall (clock : nat -> Z) (request : LLMRequest.t) (w : World),
    sameWindow clock (advance clock w) ->
    (fst (selectProvider clock request w) = None <->
     forall q, enabled w q -> within (advance clock w) q = false).
Proof.
  intros clock request w Hwin.
  destruct (selectProvider_settled clock request w Hwin) as (-> & _).
  apply choose_None, advance_providers.
Qed.

(** Ollama alone, its 1000 requests of the window used. *)
Lemma X7_witness :
  fst (selectProvider clockAtZero (preferringAndRequiring "Ollama" ["coding"])
         (runOps clockAtZero (repeat (OpGenerate plainRequest allOk) 1000)
            (getInstance clockAtZero onlyOllama))) = None.
Proof.
  apply (X7_selection_is_null_only_when_all_are_limited clockAtZero
           (preferringAndRequiring "Ollama" ["coding"])
           (runOps clockAtZero (repeat (OpGenerate plainRequest allOk) 1000)
              (getInstance clockAtZero onlyOllama))).
  - intros t _. vm_compute. discriminate.
  - intros q Hq. vm_compute in Hq. destruct Hq as [<- | []]. vm_compute. reflexivity.
Defined.

(** X8. A preferred provider that is not enabled is ignored: the selection
    does what it does for the same request without the preference. The
    same provider is returned when the preferred provider is enabled but at
    its limit (and no window reset follows the first rate check). *)
Theorem X8_unusable_preference_is_ignored :
  forall (clock : nat -> Z) (request : LLMRequest.t) (w : World) (nm : string),
    LLMRequest.preferredProvider request = Some nm ->
    (mapGet nm (providers w) = None ->
     selectProvider clock request w = selectProvider clock (withoutPreference request) w) /\
    (forall preferred,
       mapGet nm (providers w) = Some preferred ->
       within (advance clock w) preferred = false ->
       sameWindow clock (advance clock w) ->
       fst (selectProvider clock request w)
         = fst (selectProvider clock (withoutPreference request) w)).
Proof.
  intros clock request w nm Hpref. split.
  - intros Hget. unfold selectProvider.
    destruct (length _ =? 0)%nat; [reflexivity|].
    rewrite !selectPreferred_eq, Hpref. cbn [withoutPreference LLMRequest.preferredProvider
                                              truthyString].
    unfold selectCapable. cbn [withoutPreference LLMRequest.requiredCapabilities].
    destruct (String.eqb nm ""); [reflexivity|]. now rewrite Hget.
  - intros preferred Hget Hw Hwin.
    destruct (selectProvider_settled clock request w Hwin) as (-> & _).
    destruct (selectProvider_settled clock (withoutPreference request) w Hwin) as (-> & _).
    unfold choose. rewrite Hpref.
    cbn [withoutPreference LLMRequest.preferredProvider LLMRequest.requiredCapabilities
         truthyString].
    rewrite advance_providers.
    destruct (String.eqb nm ""); [reflexivity|]. now rewrite Hget, Hw.
Qed.

(** Gemini is preferred where only Claude and Ollama are enabled. *)
Lemma X8_witness :
  selectProvider clockAtZero (preferring "Gemini") (getInstance clockAtZero claudeOnly)
  = selectProvider clockAtZero (withoutPreference (preferring "Gemini"))
      (getInstance clockAtZero claudeOnly).
Proof.
  apply (proj1 (X8_unusable_preference_is_ignored clockAtZero (preferring "Gemini")
                  (getInstance clockAtZero claudeOnly) "Gemini" eq_refl)).
  vm_compute. reflexivity.
Defined.

(** X15. With no preferred provider and no required capabilities (and no
    window reset after the first rate check), the selection skips the
    providers that are at their limit, in the order of the listing, and
    returns the first provider that is below its limit. *)
Theorem X15_default_selection_skips_limited_providers :
  forall (clock : nat -> Z) (request : LLMRequest.t) (w : World)
         (l1 l2 : list LLMProvider.t) (p : LLMProvider.t),
    truthyString (LLMRequest.preferredProvider request) = None ->
    nonEmptyList (LLMRequest.requiredCapabilities request) = None ->
    sameWindow clock (advance clock w) ->
    getAvailableProviders w = (l1 ++ p :: l2)%list ->
    Forall (fun q => within (advance clock w) q = false) l1 ->
    within (advance clock w) p = true ->
    fst (selectProvider clock request w) = Some p.
Proof.
  intros clock request w l1 l2 p Hpref Hcaps Hwin Hav Hl1 Hp.
  destruct (selectProvider_settled clock request w Hwin) as (-> & _).
  unfold choose. rewrite Hpref, Hcaps, Hav. now apply find_app_skip.
Qed.

(** Ollama at its limit, Perplexity enabled: Perplexity is returned. *)
Lemma X15_witness :
  fst (selectProvider clockAtZero plainRequest
         (runOps clockAtZero (repeat (OpGenerate plainRequest allOk) 1000)
            (getInstance clockAtZero perplexityOnly)))
  = Some (providerNamed "Perplexity").
Proof.
  apply (X15_default_selection_skips_limited_providers clockAtZero plainRequest
           (runOps clockAtZero (repeat (OpGenerate plainRequest allOk) 1000)
              (getInstance clockAtZero perplexityOnly))
           [providerNamed "Ollama"] [] (providerNamed "Perplexity")).
  - reflexivity.
  - reflexivity.
  - intros t _. vm_compute. discriminate.
  - vm_compute. reflexivity.
  - constructor; [vm_compute; reflexivity | constructor].
  - vm_compute. reflexivity.
Defined.

Section Expiry.

Variable clock : nat -> Z.

Lemma zero_within w p :
  zeroAfterCheck clock w -> 0 < LLMProvider.rateLimit p ->
  within (advance clock w) p = true.
Proof. intros Hz Hl. unfold within. rewrite Hz. now apply Z.ltb_lt. Qed.

Lemma zeroAfterCheck_advance w :
  zeroAfterCheck clock w -> zeroAfterCheck clock (advance clock w).
Proof.
  intros Hz nm.
  destruct (countOf_advance clock (advance clock w) nm) as [-> | ->]; [apply Hz | reflexivity].
Qed.

Lemma expired_zeroAfterCheck w :
  60000 < clock (clockReads w) - lastReset w -> zeroAfterCheck clock w.
Proof.
  intros He nm.
  destruct (advance_cases clock w) as [(_ & Hc & _) | (Hle & _)]; [|lia].
  eapply countOf_zeroed; eauto.
Qed.

Lemma allZero_zeroAfterCheck w :
  (forall nm, countOf w nm = 0) -> zeroAfterCheck clock w.
Proof.
  intros Hz nm.
  destruct (countOf_advance clock w nm) as [-> | ->]; [apply Hz | reflexivity].
Qed.

(** With every count at zero after the next check, a scan returns the first
    provider that meets its condition. *)
Lemma firstWithinLimit_zero cond l : forall w,
  zeroAfterCheck clock w ->
  (forall q, In q l -> 0 < LLMProvider.rateLimit q) ->
  fst (firstWithinLimit clock cond l w) = find cond l /\
  zeroAfterCheck clock (snd (firstWithinLimit clock cond l w)).
Proof.
  induction l as [|p l IH]; intros w Hz Hl; [split; [reflexivity | exact Hz]|].
  rewrite firstWithinLimit_cons. cbn [find].
  destruct (cond p).
  - rewrite zero_within; [|exact Hz | apply Hl; now left].
    split; [reflexivity | now apply zeroAfterCheck_advance].
  - apply IH; [exact Hz|]. intros q Hq. apply Hl. now right.
Qed.

(** Then the selection depends on the request and the providers only. *)
Lemma selectProvider_zero request w :
  zeroAfterCheck clock w ->
  (forall q, enabled w q -> 0 < LLMProvider.rateLimit q) ->
  fst (selectProvider clock request w) =
  let fallthrough :=
    match nonEmptyList (LLMRequest.requiredCapabilities request) with
    | Some required =>
        match find (hasAllCapabilities required) (getAvailableProviders w) with
        | Some p => Some p
        | None => head (getAvailableProviders w)
        end
    | None => head (getAvailableProviders w)
    end in
  match truthyString (LLMRequest.preferredProvider request) with
  | Some nm =>
      match mapGet nm (providers w) with
      | Some preferred => Some preferred
      | None => fallthrough
      end
  | None => fallthrough
  end.
Proof.
  intros Hz Hpos. cbn zeta. unfold selectProvider.
  pose proof (getAvailableProviders_length w) as Hlen.
  set (available := getAvailableProviders w) in *.
  assert (Hposl : forall q, In q available -> 0 < LLMProvider.rateLimit q).
  { intros q Hq. now apply Hpos, getAvailableProviders_In. }
  assert (Hdef : forall w1, zeroAfterCheck clock w1 ->
            fst (firstWithinLimit clock (fun _ => true) available w1) = head available).
  { intros w1 Hz1.
    destruct (firstWithinLimit_zero (fun _ => true) available w1 Hz1 Hposl) as (-> & _).
    now destruct available. }
  assert (Hrest : forall w1, zeroAfterCheck clock w1 ->
    fst (match selectCapable clock request available w1 with
         | (Some p, w2) => (Some p, w2)
         | (None, w2) => firstWithinLimit clock (fun _ => true) available w2
         end)
    = match nonEmptyList (LLMRequest.requiredCapabilities request) with
      | Some required =>
          match find (hasAllCapabilities required) available with
          | Some p => Some p
          | None => head available
          end
      | None => head available
      end).
  { intros w1 Hz1. unfold selectCapable.
    destruct (nonEmptyList _) as [required|]; [|now apply Hdef].
    destruct (firstWithinLimit_zero (hasAllCapabilities required) available w1 Hz1 Hposl)
      as (Hf & Hz2).
    destruct (firstWithinLimit clock (hasAllCapabilities required) available w1)
      as [[p|] w2]; cbn [fst snd] in Hf, Hz2; rewrite <- Hf; [reflexivity|].
    now apply Hdef. }
  destruct (length available =? 0)%nat eqn:E.
  { apply Nat.eqb_eq in E. rewrite E in Hlen.
    destruct available; [|discriminate].
    destruct (providers w); [|discriminate]. cbn.
    destruct (truthyString _); destruct (nonEmptyList _); reflexivity. }
  rewrite selectPreferred_eq.
  destruct (truthyString _) as [nm|]; [|now apply Hrest].
  destruct (mapGet nm (providers w)) as [preferred|] eqn:Hg; [|now apply Hrest].
  rewrite zero_within; [reflexivity | exact Hz|].
  apply Hpos. apply mapGet_In in Hg. apply in_map_iff. now exists (nm, preferred).
Qed.

End Expiry.

(** X9. In a world reached from construction, a selection whose first rate
    check comes more than 60000 ms after the window start always returns a
    provider, whatever the counts were, and it returns the provider that
    the same request gets from a new instance. *)
Theorem X9_expired_window_restores_the_initial_selection :
  forall (clock : nat -> Z) (isConfigured : string -> bool) (ops : list Op)
         (request : LLMRequest.t),
    60000 < clock (clockReads (runOps clock ops (getInstance clock isConfigured)))
            - lastReset (runOps clock ops (getInstance clock isConfigured)) ->
    (exists p,
       fst (selectProvider clock request
              (runOps clock ops (getInstance clock isConfigured))) = Some p) /\
    fst (selectProvider clock request (runOps clock ops (getInstance clock isConfigured)))
      = fst (selectProvider clock request (getInstance clock isConfigured)).
Proof.
  intros clock isConfigured ops request Hexp.
  set (w0 := getInstance clock isConfigured) in *.
  set (w := runOps clock ops w0) in *.
  assert (Hprov : providers w = providers w0) by apply runOps_providers.
  assert (Hav : getAvailableProviders w = getAvailableProviders w0)
    by (unfold getAvailableProviders; now rewrite Hprov).
  assert (Hpos0 : forall q, enabled w0 q -> 0 < LLMProvider.rateLimit q).
  { intros q Hq. apply getInstance_enabled in Hq.
    pose proof providerConfigs_positive as Hl. rewrite Forall_forall in Hl.
    apply Hl. now apply list_elem_of_In. }
  assert (Hpos : forall q, enabled w q -> 0 < LLMProvider.rateLimit q).
  { intros q Hq. apply Hpos0. unfold enabled in *. now rewrite <- Hprov. }
  rewrite (selectProvider_zero clock request w (expired_zeroAfterCheck clock w Hexp) Hpos).
  rewrite (selectProvider_zero clock request w0
             (allZero_zeroAfterCheck clock w0
                (proj1 (proj2 (getInstance_fresh clock isConfigured)))) Hpos0).
  cbn zeta. rewrite Hav, Hprov. split; [|reflexivity].
  assert (Hhead : exists p, head (getAvailableProviders w0) = Some p).
  { pose proof (getAvailableProviders_length w0) as Hlen.
    destruct (getAvailableProviders w0) as [|p l]; [|now exists p].
    exfalso. unfold w0 in Hlen. rewrite getInstance_providers, length_map in Hlen.
    assert (Hin : In (providerNamed "Ollama")
                     (List.filter (configuredOrOllama isConfigured) providerConfigs)).
    { apply filter_In. split; [vm_compute; do 3 right; now left|].
      apply orb_true_iff. right. reflexivity. }
    destruct (List.filter _ providerConfigs); [destruct Hin | discriminate]. }
  destruct Hhead as (h & Hh). rewrite Hh.
  destruct (truthyString _) as [nm|].
  - destruct (mapGet nm (providers w0)) as [pr|]; [now exists pr|].
    destruct (nonEmptyList _); [destruct (find _ _) as [x|]; eauto | eauto].
  - destruct (nonEmptyList _); [destruct (find _ _) as [x|]; eauto | eauto].
Qed.

(** Ollama alone, at its limit, and a selection 100000 ms later. *)
Lemma X9_witness :
  fst (selectProvider (clockJump 3001 100000) plainRequest
         (runOps (clockJump 3001 100000) (repeat (OpGenerate plainRequest allOk) 1000)
            (getInstance (clockJump 3001 100000) onlyOllama)))
  = fst (selectProvider (clockJump 3001 100000) plainRequest
           (getInstance (clockJump 3001 100000) onlyOllama)).
Proof.
  apply (proj2 (X9_expired_window_restores_the_initial_selection
                  (clockJump 3001 100000) onlyOllama
                  (repeat (OpGenerate plainRequest allOk) 1000) plainRequest
                  ltac:(vm_compute; reflexivity))).
Defined.

(** X14. While the window lasts, a selection changes no count and has no
    influence on the selections that follow: a request gets the same
    provider after any other selection as it gets without it. *)
Theorem X14_selection_leaves_later_selections_unchanged :
  forall (clock : nat -> Z) (first next : LLMRequest.t) (w : World),
    sameWindow clock w ->
    requestCounts (snd (selectProvider clock first w)) = requestCounts w /\
    fst (selectProvider clock next (snd (selectProvider clock first w)))
      = fst (selectProvider clock next w).
Proof.
  intros clock first next w Hwin.
  pose proof (selectProvider_later clock first w Hwin) as Hl.
  set (w' := snd (selectProvider clock first w)) in *.
  pose proof (later_sameWindow clock w w' Hwin Hl) as Hwin'.
  destruct Hl as (Hp & Hc & _).
  split; [exact Hc|].
  destruct (selectProvider_settled clock next w (sameWindow_advance clock w Hwin))
    as (-> & _).
  destruct (selectProvider_settled clock next w' (sameWindow_advance clock w' Hwin'))
    as (-> & _).
  replace (getAvailableProviders w') with (getAvailableProviders w)
    by (unfold getAvailableProviders; now rewrite Hp).
  apply choose_agree.
  - now rewrite !advance_providers.
  - intros q _. apply within_same_counts.
    destruct (advance_sameWindow clock w Hwin) as (-> & _).
    destruct (advance_sameWindow clock w' Hwin') as (-> & _). exact Hc.
Qed.

(** Selecting for a request that requires "vision" does not change what a
    plain request gets. *)
Lemma X14_witness :
  fst (selectProvider clockAtZero plainRequest
         (snd (selectProvider clockAtZero (requiring ["vision"])
                 (getInstance clockAtZero everyProvider))))
  = fst (selectProvider clockAtZero plainRequest (getInstance clockAtZero everyProvider)).
Proof.
  apply (X14_selection_leaves_later_selections_unchanged clockAtZero
           (requiring ["vision"]) plainRequest (getInstance clockAtZero everyProvider)).
  intros t _. vm_compute. discriminate.
Defined.

(** ** More on the fallback *)

Section FallbackScan.

Variable clock : nat -> Z.

Lemma findIndexFrom_middle nm l1 p l2 : forall i,
  Forall (fun q => LLMProvider.name q <> nm) l1 ->
  LLMProvider.name p = nm ->
  findIndexFrom nm (l1 ++ p :: l2) i = i + Z.of_nat (length l1).
Proof.
  induction l1 as [|q l1 IH]; intros i Hl Hp; cbn [app findIndexFrom length].
  - rewrite Hp, String.eqb_refl. cbn. lia.
  - apply Forall_cons in Hl as [Hq Hl].
    apply String.eqb_neq in Hq. rewrite Hq.
    rewrite IH by assumption. lia.
Qed.

Lemma find_None_Forall {A} (f : A -> bool) l :
  find f l = None <-> Forall (fun x => f x = false) l.
Proof.
  induction l as [|x l IH]; cbn; [split; [constructor | reflexivity]|].
  destruct (f x) eqn:E.
  - split; [discriminate|]. intros H. apply Forall_cons in H as [H _]. congruence.
  - rewrite IH. split; [now constructor|]. intros H. now apply Forall_cons in H as [_ H].
Qed.

End FallbackScan.

(** X10. While the window lasts, the fallback for a provider of the listing
    is the first provider after it in the listing that is below its limit,
    and there is none exactly when every provider after it is at its limit:
    providers before it in the listing are never considered. *)
Theorem X10_fallback_is_first_unlimited_provider_after_current :
  forall (clock : nat -> Z) (current : LLMProvider.t) (w : World)
         (l1 l2 : list LLMProvider.t),
    wellFormed w ->
    sameWindow clock w ->
    getAvailableProviders w = (l1 ++ current :: l2)%list ->
    fst (getFallbackProvider clock current w) = find (within w) l2 /\
    (fst (getFallbackProvider clock current w) = None <->
     Forall (fun q => within w q = false) l2).
Proof.
  intros clock current w l1 l2 Hwf Hwin Hav.
  assert (H : fst (getFallbackProvider clock current w) = find (within w) l2).
  { unfold getFallbackProvider. rewrite Hav. unfold findIndex.
    pose proof (getAvailableProviders_names w Hwf) as Hnd. rewrite Hav in Hnd.
    rewrite findIndexFrom_middle; [| |reflexivity].
    - replace (drop (Z.to_nat (0 + Z.of_nat (length l1) + 1)) (l1 ++ current :: l2))
        with l2.
      + destruct (firstWithinLimit_sameWindow clock (fun _ => true) l2 w Hwin) as (-> & _).
        now apply find_pointwise.
      + change (l1 ++ current :: l2)%list with (l1 ++ [current] ++ l2)%list.
        rewrite app_assoc. symmetry. apply drop_app_length'.
        rewrite length_app. cbn. lia.
    - rewrite map_app in Hnd. cbn in Hnd.
      apply NoDup_app in Hnd as (_ & Hdis & _).
      apply Forall_forall. intros q Hq Heq.
      apply (Hdis (LLMProvider.name q)).
      + apply list_elem_of_In, in_map, list_elem_of_In, Hq.
      + rewrite Heq. apply list_elem_of_here. }
  split; [exact H|]. rewrite H. apply find_None_Forall.
Qed.

(** Every provider enabled: Groq is tenth and its fallback is TogetherAI;
    TogetherAI is last and has none. *)
Lemma X10_witness :
  fst (getFallbackProvider clockAtZero (providerNamed "Groq")
         (getInstance clockAtZero everyProvider)) = Some (providerNamed "TogetherAI") /\
  fst (getFallbackProvider clockAtZero (providerNamed "TogetherAI")
         (getInstance clockAtZero everyProvider)) = None.
Proof.
  split.
  - rewrite (proj1 (X10_fallback_is_first_unlimited_provider_after_current clockAtZero
               (providerNamed "Groq") (getInstance clockAtZero everyProvider)
               (firstn 9 providerConfigs) [providerNamed "TogetherAI"]
               (proj1 (getInstance_fresh clockAtZero everyProvider))
               ltac:(intros t _; vm_compute; discriminate)
               ltac:(vm_compute; reflexivity))).
    vm_compute. reflexivity.
  - apply (proj2 (X10_fallback_is_first_unlimited_provider_after_current clockAtZero
               (providerNamed "TogetherAI") (getInstance clockAtZero everyProvider)
               (firstn 10 providerConfigs) []
               (proj1 (getInstance_fresh clockAtZero everyProvider))
               ltac:(intros t _; vm_compute; discriminate)
               ltac:(vm_compute; reflexivity))).
    constructor.
Defined.

(** ** The status *)

Section StatusFacts.

Variable clock : nat -> Z.

Lemma mapGet_absent {V} k (m : list (string * V)) :
  ~ In k (map fst m) -> mapGet k m = None.
Proof.
  induction m as [|[k' v] m IH]; cbn; [reflexivity|].
  intros H. destruct (String.eqb k' k) eqn:E.
  - apply String.eqb_eq in E. exfalso. apply H. now left.
  - apply IH. intros Hin. apply H. now right.
Qed.

(** In the map built from a list of distinct names, a name of the list is a
    key exactly when its provider was kept. *)
Lemma mapHas_named (f : LLMProvider.t -> bool) l c :
  NoDup (map LLMProvider.name l) -> In c l ->
  mapHas (LLMProvider.name c)
         (map (fun x => (LLMProvider.name x, x)) (List.filter f l)) = f c.
Proof.
  induction l as [|x l IH]; [intros _ []|].
  cbn [map]. intros Hnd. apply NoDup_cons in Hnd as [Hx Hnd].
  assert (Hother : forall y, In y l -> LLMProvider.name x <> LLMProvider.name y).
  { intros y Hy E. apply Hx. rewrite E. apply list_elem_of_In. now apply in_map. }
  intros [<- | Hc]; cbn [List.filter].
  - destruct (f x) eqn:Hf.
    + unfold mapHas. cbn. now rewrite String.eqb_refl.
    + unfold mapHas. rewrite mapGet_absent; [reflexivity|].
      rewrite map_fst_named. intros Hin.
      apply in_map_iff in Hin as (y & Hn & Hy). apply filter_In in Hy as [Hy _].
      now apply (Hother y Hy).
  - destruct (f x).
    + unfold mapHas. cbn [map mapGet].
      destruct (String.eqb (LLMProvider.name x) (LLMProvider.name c)) eqn:E.
      * apply String.eqb_eq in E. exfalso. now apply (Hother c Hc).
      * now apply IH.
    + now apply IH.
Qed.

Lemma filter_map_length {A B} (g : B -> bool) (h : A -> B) l :
  length (List.filter g (map h l)) = length (List.filter (fun x => g (h x)) l).
Proof.
  induction l as [|x l IH]; cbn; [reflexivity|].
  destruct (g (h x)); cbn; now rewrite IH.
Qed.

Lemma countsOver_cons c l w :
  countsOver (c :: l) w = countOf w (LLMProvider.name c) + countsOver l w.
Proof. reflexivity. Qed.

Lemma countsOver_same l w w' :
  requestCounts w' = requestCounts w -> countsOver l w' = countsOver l w.
Proof.
  intros H. induction l as [|c l IH]; [reflexivity|].
  rewrite !countsOver_cons, IH. unfold countOf. now rewrite H.
Qed.

Lemma countsOver_allZero l w :
  (forall nm, countOf w nm = 0) -> countsOver l w = 0.
Proof.
  intros H. induction l as [|c l IH]; [reflexivity|].
  rewrite countsOver_cons, IH, H. reflexivity.
Qed.

Lemma countsOver_rolled l w w' :
  rolled w w' -> countsOver l w' = countsOver l w \/ countsOver l w' = 0.
Proof.
  intros (_ & _ & [H | H]).
  - left. now apply countsOver_same.
  - right. apply countsOver_allZero. intros nm. eapply countOf_zeroed; eauto.
Qed.

(** One increment raises the sum over distinct names by one at most. *)
Lemma countsOver_recordRequest l p w :
  NoDup (map LLMProvider.name l) ->
  countsOver l w <= countsOver l (recordRequest p w) <= countsOver l w + 1 /\
  (~ In (LLMProvider.name p) (map LLMProvider.name l) ->
   countsOver l (recordRequest p w) = countsOver l w) /\
  (In (LLMProvider.name p) (map LLMProvider.name l) ->
   countsOver l (recordRequest p w) = countsOver l w + 1).
Proof.
  induction l as [|c l IH]; cbn [map]; intros Hnd.
  - cbn. split; [lia|]. split; [reflexivity | intros []].
  - apply NoDup_cons in Hnd as [Hc Hnd]. destruct (IH Hnd) as (Hle & Hout & Hin).
    rewrite !countsOver_cons, countOf_recordRequest.
    destruct (String.eqb (LLMProvider.name c) (LLMProvider.name p)) eqn:E.
    + apply String.eqb_eq in E.
      assert (Hno : ~ In (LLMProvider.name p) (map LLMProvider.name l)).
      { rewrite <- E. intros H. apply Hc. now apply list_elem_of_In. }
      rewrite (Hout Hno). split; [lia|]. split; [|lia].
      intros H. exfalso. apply H. now left.
    + apply String.eqb_neq in E. split; [lia|]. split.
      * intros H. rewrite Hout; [reflexivity|]. intros H'. apply H. now right.
      * intros [H | H]; [congruence|]. rewrite (Hin H). lia.
Qed.

Lemma statusTotal_getStatus w :
  statusTotal (getStatus w) = countsOver providerConfigs w.
Proof.
  unfold statusTotal, getStatus. cbn [Status.providerDetails].
  induction providerConfigs as [|c l IH]; [reflexivity|].
  rewrite countsOver_cons, <- IH. reflexivity.
Qed.

Lemma generateCalls_cons op ops :
  generateCalls (op :: ops)
  = (match op with OpGenerate _ _ => 1 | OpSelectProvider _ => 0 end) + generateCalls ops.
Proof. unfold generateCalls. destruct op; cbn [List.filter length]; lia. Qed.

(** Each operation keeps the sum of the counts between zero and the number
    of [generate] calls. *)
Lemma runOp_countsOver op w n :
  0 <= countsOver providerConfigs w <= n ->
  0 <= countsOver providerConfigs (runOp clock op w)
    <= n + match op with OpGenerate _ _ => 1 | OpSelectProvider _ => 0 end.
Proof.
  intros Hn. destruct op as [request | request getCredential]; cbn [runOp].
  - destruct (countsOver_rolled providerConfigs w _ (selectProvider_rolled clock request w))
      as [-> | ->]; lia.
  - pose proof (generate_snd clock getCredential request w) as G. cbn zeta in G.
    pose proof (selectProvider_rolled clock request w) as Hr.
    pose proof (generate_counts clock getCredential request w) as Hc.
    destruct (selectProvider clock request w) as [[p|] w1]; cbn [snd] in Hr.
    + destruct (countsOver_rolled providerConfigs w w1 Hr) as [H1 | H1].
      all: destruct (countsOver_recordRequest providerConfigs p
                       (snd (readClock clock w1)) providerConfigs_names) as (Hle & _).
      all: rewrite (countsOver_same providerConfigs w1 (snd (readClock clock w1)) eq_refl)
             in Hle.
      all: fold (charged clock p w1) in Hle.
      all: destruct (Hc p w1 eq_refl) as (_ & [H | H]).
      all: try (rewrite (countsOver_same _ _ _ H); lia).
      all: rewrite (countsOver_allZero providerConfigs _
                      (fun nm => countOf_zeroed _ nm _ H)); lia.
    + rewrite G.
      destruct (countsOver_rolled providerConfigs w w1 Hr) as [-> | ->]; lia.
Qed.

Lemma runOps_countsOver ops : forall w n,
  0 <= countsOver providerConfigs w <= n ->
  0 <= countsOver providerConfigs (runOps clock ops w) <= n + generateCalls ops.
Proof.
  induction ops as [|op ops IH]; intros w n Hn.
  - unfold runOps, generateCalls. cbn [fold_left List.filter length]. lia.
  - rewrite generateCalls_cons. cbn [runOps fold_left].
    pose proof (IH _ _ (runOp_countsOver op w n Hn)) as H. unfold runOps in H. lia.
Qed.

End StatusFacts.

(** X11. In every world reached from construction the status lists the
    whole catalog, in its order: 11 providers in total; each one is shown
    available exactly when its credential is configured or it is Ollama;
    the number of configured providers is the number of providers shown
    available and lies between 1 and 11; a provider shown unavailable has a
    request count of 0, and no request count is negative. *)
Theorem X11_status_of_reached_worlds :
  forall (clock : nat -> Z) (isConfigured : string -> bool) (ops : list Op),
    Status.totalProviders
      (getStatus (runOps clock ops (getInstance clock isConfigured))) = 11 /\
    1 <= Status.configuredProviders
           (getStatus (runOps clock ops (getInstance clock isConfigured))) <= 11 /\
    Status.configuredProviders
      (getStatus (runOps clock ops (getInstance clock isConfigured)))
      = Z.of_nat (length (List.filter ProviderDetail.available
                            (Status.providerDetails
                               (getStatus (runOps clock ops
                                             (getInstance clock isConfigured)))))) /\
    map ProviderDetail.name
        (Status.providerDetails
           (getStatus (runOps clock ops (getInstance clock isConfigured))))
      = map LLMProvider.name providerConfigs /\
    (forall d,
       In d (Status.providerDetails
               (getStatus (runOps clock ops (getInstance clock isConfigured)))) ->
       ProviderDetail.available d
         = (isConfigured (ProviderDetail.name d)
            || String.eqb (ProviderDetail.name d) "Ollama") /\
       (ProviderDetail.available d = false -> ProviderDetail.requestCount d = 0) /\
       0 <= ProviderDetail.requestCount d).
Proof.
  intros clock isConfigured ops.
  set (w := runOps clock ops (getInstance clock isConfigured)).
  assert (Hprov : providers w
                  = map (fun c => (LLMProvider.name c, c))
                        (List.filter (configuredOrOllama isConfigured) providerConfigs)).
  { unfold w. rewrite runOps_providers. apply getInstance_providers. }
  assert (Hhas : forall c, In c providerConfigs ->
            mapHas (LLMProvider.name c) (providers w) = configuredOrOllama isConfigured c).
  { intros c Hc. rewrite Hprov. apply mapHas_named; [apply providerConfigs_names | exact Hc]. }
  assert (Hollama : In (providerNamed "Ollama")
                      (List.filter (configuredOrOllama isConfigured) providerConfigs)).
  { apply filter_In. split; [vm_compute; do 3 right; now left|].
    apply orb_true_iff. right. reflexivity. }
  split; [reflexivity|]. split; [|split; [|split]].
  - cbn [getStatus Status.configuredProviders]. rewrite Hprov, length_map.
    pose proof (filter_length_le (configuredOrOllama isConfigured) providerConfigs) as Hle.
    change (length providerConfigs) with 11%nat in Hle.
    destruct (List.filter (configuredOrOllama isConfigured) providerConfigs);
      [destruct Hollama | cbn [length] in *; lia].
  - cbn [getStatus Status.configuredProviders Status.providerDetails].
    rewrite filter_map_length. cbn [ProviderDetail.available].
    rewrite (filter_ext_in _ (configuredOrOllama isConfigured) providerConfigs Hhas).
    now rewrite Hprov, length_map.
  - cbn [getStatus Status.providerDetails]. rewrite map_map. reflexivity.
  - intros d Hd. cbn [getStatus Status.providerDetails] in Hd.
    apply in_map_iff in Hd as (c & <- & Hc).
    cbn [ProviderDetail.available ProviderDetail.name ProviderDetail.requestCount].
    rewrite (Hhas c Hc). split; [reflexivity|].
    destruct (reached_catalog_counts clock isConfigured ops c Hc) as [Hen | Hz].
    + fold w in Hen. split.
      * intros Hf. exfalso. unfold enabled in Hen.
        rewrite Hprov, map_snd_named in Hen. apply filter_In in Hen as [_ Hen].
        congruence.
      * destruct (runOps_invariant clock ops (getInstance clock isConfigured)
                    (fresh_countsBounded _ (getInstance_fresh clock isConfigured)))
          as [_ Hb].
        now apply Hb.
    + fold w in Hz. rewrite Hz. split; [reflexivity | lia].
Qed.

(** X12. In every world reached from construction the request counts shown
    by the status add up to at most the number of [generate] calls made so
    far, and to no less than zero: a call of [selectProvider] alone never
    adds to them, and a [generate] adds one at most. *)
Theorem X12_counts_add_up_to_at_most_the_generate_calls :
  forall (clock : nat -> Z) (isConfigured : string -> bool) (ops : list Op),
    0 <= statusTotal (getStatus (runOps clock ops (getInstance clock isConfigured)))
      <= generateCalls ops.
Proof.
  intros clock isConfigured ops. rewrite statusTotal_getStatus.
  pose proof (runOps_countsOver clock ops (getInstance clock isConfigured) 0) as H.
  rewrite countsOver_allZero in H by apply (getInstance_fresh clock isConfigured).
  specialize (H ltac:(lia)). lia.
Qed.

(** ** The two maps *)

Section Keys.

Variable clock : nat -> Z.

Lemma mapSet_key_set {V} k (v : V) m :
  (list_to_set (map fst (mapSet k v m)) : gset string)
  = {[k]} ∪ list_to_set (map fst m).
Proof.
  rewrite mapSet_keys.
  destruct (existsb (String.eqb k) (map fst m)) eqn:E.
  - symmetry. apply subseteq_union_1_L, singleton_subseteq_l.
    apply elem_of_list_to_set, list_elem_of_In.
    apply existsb_exists in E as (x & Hx & Ex). apply String.eqb_eq in Ex. now subst x.
  - rewrite list_to_set_app_L.
    change (list_to_set [k] : gset string) with ({[k]} ∪ (∅ : gset string)).
    rewrite union_empty_r_L. apply union_comm_L.
Qed.

Lemma initializeLoop_sameKeys isConfigured configs : forall w,
  sameKeys w -> sameKeys (initializeLoop isConfigured configs w).
Proof.
  induction configs as [|c configs IH]; intros w H; [exact H|].
  cbn [initializeLoop]. destruct (_ || _); [|now apply IH].
  apply IH. unfold sameKeys in *. cbn [providers requestCounts].
  rewrite dom_insert_L, mapSet_key_set, H. reflexivity.
Qed.

Lemma recordRequest_sameKeys w p :
  wellFormed w -> enabled w p -> sameKeys w -> sameKeys (recordRequest p w).
Proof.
  intros [_ Hk] Hen H. unfold sameKeys, recordRequest, withCounts in *.
  cbn [providers requestCounts]. rewrite dom_insert_L, H.
  assert (Hin : LLMProvider.name p ∈ (list_to_set (map fst (providers w)) : gset string)).
  { apply elem_of_list_to_set, list_elem_of_In.
    unfold enabled in Hen. apply in_map_iff in Hen as ([k q] & Hq & Hin). cbn in Hq. subst q.
    rewrite Forall_forall in Hk. specialize (Hk _ (proj2 (list_elem_of_In _ _) Hin)).
    cbn in Hk. rewrite Hk. apply in_map_iff. now exists (k, p). }
  now apply subseteq_union_1_L, singleton_subseteq_l.
Qed.

Lemma runOps_sameKeys ops w :
  wellFormed w /\ sameKeys w ->
  wellFormed (runOps clock ops w) /\ sameKeys (runOps clock ops w).
Proof.
  apply (runOps_preserves clock (fun w => wellFormed w /\ sameKeys w)).
  - intros w1 w2 (Hp & _ & Hc) [Hwf Hs]. split.
    + now apply (wellFormed_providers w1).
    + unfold sameKeys in *. rewrite Hp.
      destruct Hc as [-> | ->]; [exact Hs | now rewrite dom_fmap_L].
  - intros w1 w2 Hp Hc [Hwf Hs]. split.
    + now apply (wellFormed_providers w1).
    + unfold sameKeys in *. now rewrite Hp, Hc.
  - intros w1 p Hen _ [Hwf Hs]. split.
    + now apply (wellFormed_providers w1).
    + now apply recordRequest_sameKeys.
Qed.

End Keys.

(** X16. In every world reached from construction the map of request counts
    has the same keys as the map of providers: a count is kept for every
    enabled provider and for nothing else. *)
Theorem X16_counts_are_kept_for_exactly_the_enabled_providers :
  forall (clock : nat -> Z) (isConfigured : string -> bool) (ops : list Op) (nm : string),
    is_Some (requestCounts (runOps clock ops (getInstance clock isConfigured)) !! nm) <->
    is_Some (mapGet nm (providers (runOps clock ops (getInstance clock isConfigured)))).
Proof.
  intros clock isConfigured ops nm.
  destruct (runOps_sameKeys clock ops (getInstance clock isConfigured)) as [_ Hs].
  { split; [apply (getInstance_fresh clock isConfigured)|].
    rewrite getInstance_eq. apply initializeLoop_sameKeys.
    unfold sameKeys. cbn. now rewrite dom_empty_L. }
  set (w := runOps clock ops (getInstance clock isConfigured)) in *.
  rewrite <- elem_of_dom, Hs, elem_of_list_to_set, list_elem_of_In.
  split.
  - intros Hin. destruct (mapGet nm (providers w)) eqn:E; [eauto|].
    exfalso. revert Hin E. generalize (providers w). intros m.
    induction m as [|[k v] m IH]; cbn; [tauto|].
    destruct (String.eqb k nm) eqn:Ek; [discriminate|].
    apply String.eqb_neq in Ek. intros [H | H] E; [contradiction | now apply IH].
  - intros [v Hv]. apply mapGet_In in Hv. apply in_map_iff. now exists (nm, v).
Qed.

(** ** What a thrown error means *)

(** X17. When [generate] throws, either the selection returned no provider,
    the error is "No LLM provider available" and no provider was called, or
    the error is the one that the credential manager threw for the last
    provider called, which is an enabled provider. *)
Theorem X17_thrown_error_comes_from_the_last_provider_called :
  forall (clock : nat -> Z) (getCredential : string -> Result string)
         (request : LLMRequest.t) (w w' : World) (e : Exn),
    generate clock getCredential request w = (Throw e, w') ->
    (fst (selectProvider clock request w) = None /\
     e = Error "No LLM provider available" /\
     invoked w' = invoked w) \/
    (exists p,
       enabled w p /\
       last (invoked w') = Some (LLMProvider.name p) /\
       getCredential (LLMProvider.name p) = Throw e).
Proof.
  intros clock getCredential request w w' e. rewrite generate_eq.
  pose proof (selectProvider_Some clock request w) as Hsome.
  pose proof (selectProvider_rolled clock request w) as (Hprov & Hinv & _).
  destruct (selectProvider clock request w) as [[p|] w1]; cbn [fst snd] in *.
  2:{ intros [= <- <-]. left. auto. }
  destruct (Hsome p w1 eq_refl) as (Hen & _). cbn zeta.
  pose proof (callProvider_fst getCredential p request (charged clock p w1)) as Hr.
  pose proof (callProvider_snd getCredential p request (charged clock p w1)) as Hw4.
  destruct (callProvider getCredential p request (charged clock p w1)) as [r w4].
  cbn [fst snd] in Hr, Hw4.
  destruct (getCredential (LLMProvider.name p)) eqn:Hp; subst r; [discriminate|].
  pose proof (getFallbackProvider_index clock p w4) as Hidx.
  pose proof (getFallbackProvider_rolled clock p w4) as (Hprov5 & Hinv5 & _).
  destruct (getFallbackProvider clock p w4) as [[f|] w5]; cbn [snd] in Hprov5, Hinv5.
  - destruct (Hidx f w5 eq_refl) as (k & Hk & _).
    pose proof (callProvider_fst getCredential f request w5) as Hr.
    pose proof (callProvider_snd getCredential f request w5) as Hw6.
    destruct (callProvider getCredential f request w5) as [r w6].
    cbn [fst snd] in Hr, Hw6.
    destruct (getCredential (LLMProvider.name f)) eqn:Hf; subst r; [discriminate|].
    intros [= <- <-]. right. exists f. split; [|split; [|exact Hf]].
    + apply getAvailableProviders_In.
      replace (getAvailableProviders w) with (getAvailableProviders w4);
        [apply list_elem_of_In, list_elem_of_lookup; eauto|].
      unfold getAvailableProviders. subst w4. cbn. now rewrite Hprov.
    + subst w6. cbn. apply last_snoc.
  - intros [= <- <-]. right. exists p. split; [exact Hen|]. split; [|exact Hp].
    rewrite Hinv5. subst w4. cbn. apply last_snoc.
Qed.

(** Ollama alone, and its credential cannot be fetched. *)
Lemma X17_witness :
  exists p,
    last (invoked (snd (generate clockAtZero allFail plainRequest
                          (getInstance clockAtZero onlyOllama))))
      = Some (LLMProvider.name p) /\
    allFail (LLMProvider.name p) = Throw (Error "no credential for Ollama").
Proof.
  destruct (X17_thrown_error_comes_from_the_last_provider_called clockAtZero allFail
              plainRequest (getInstance clockAtZero onlyOllama)
              (snd (generate clockAtZero allFail plainRequest
                      (getInstance clockAtZero onlyOllama)))
              (Error "no credential for Ollama") ltac:(vm_compute; reflexivity))
    as [(Hnone & _) | (p & _ & Hlast & Hfail)].
  - vm_compute in Hnone. discriminate.
  - exists p. split; [exact Hlast | exact Hfail].
Defined.
